(** * Account and authentication utilities of edx-platform

    A shallow embedding of

    - [openedx/core/djangoapps/user_authn/utils.py]
      ([password_complexity], [generate_password],
      [generate_username_suggestions], [check_pwned_password]) and
    - [openedx/core/djangoapps/user_api/accounts/utils.py]
      (the older [generate_password]),

    followed by the properties of these functions.

    Python values are modelled as follows.  An [int] is a [Z].  A
    character of a [str] is its Unicode code point, an [N]; a [str] that
    holds arbitrary text is a list of them.  Dictionary keys that are
    identifiers (rule names, validator paths, hexadecimal digests) are
    [string]s and the dictionaries are [gmap]s.  An exception is a value
    of [exn]; a function that can raise returns a [result].  The random
    generators and the user table are the only state: a [world] counts
    how much of each has been consumed. *)

From Stdlib Require Import ZArith NArith Lia Permutation DecimalString Ascii String.
From stdpp Require Import base option list gmap strings fin_maps.

Set Default Proof Using "Type".

(** ** Python values *)

Abbreviation char := N (only parsing).
Abbreviation pystr := (list N) (only parsing).

Inductive exn : Type :=
| ValueError
| TypeError
| IndexError
| KeyError
| UnboundLocalError
| ZeroDivisionError
| UnicodeEncodeError.

Inductive result (A : Type) : Type :=
| Ok (a : A)
| Raise (e : exn).
Arguments Ok {A} a.
Arguments Raise {A} e.

(** What the generators and the user table have been asked so far. *)
Record world : Type := World {
  urandom_reads : nat;   (* draws made through random.SystemRandom() *)
  twister_steps : nat;   (* draws made from the module-level random.Random() *)
  user_queries  : nat;   (* calls of username_exists_or_retired *)
}.

Definition M (A : Type) : Type := world -> result (A * world).

Definition ret {A} (a : A) : M A := fun w => Ok (a, w).
Definition raise {A} (e : exn) : M A := fun _ => Raise e.
Definition bind {A B} (m : M A) (k : A -> M B) : M B :=
  fun w => match m w with
           | Ok (a, w') => k a w'
           | Raise e => Raise e
           end.
Definition lift {A} (r : result A) : M A :=
  fun w => match r with Ok a => Ok (a, w) | Raise e => Raise e end.

Declare Scope py_scope.
Delimit Scope py_scope with py.
Notation "x <- m ;; k" := (bind m (fun x => k))
  (at level 100, m at next level, right associativity) : py_scope.
Local Open Scope py_scope.

(** [for _ in range(n)] threading a loop variable. *)
Fixpoint for_range {A} (n : nat) (body : A -> M A) (a : A) : M A :=
  match n with
  | O => ret a
  | S n' => a' <- body a ;; for_range n' body a'
  end.

(** [for x in xs] threading a loop variable. *)
Fixpoint for_each {A X} (xs : list X) (body : A -> X -> M A) (a : A) : M A :=
  match xs with
  | [] => ret a
  | x :: xs' => a' <- body a x ;; for_each xs' body a'
  end.

(** [range(n)] of a Python int runs [n] times, and not at all when [n <= 0]. *)
Definition range_len (n : Z) : nat := Z.to_nat n.

(** [dict.get(key, 0)] *)
Definition get0 (d : gmap string Z) (key : string) : Z := default 0%Z (d !! key).

(** [s[:stop]]; a negative [stop] counts from the end, [None] keeps all. *)
Definition slice_to {A} (stop : option Z) (s : list A) : list A :=
  match stop with
  | None => s
  | Some k =>
      if (k <? 0)%Z then take (Z.to_nat (Z.of_nat (length s) + k)) s
      else take (Z.to_nat k) s
  end.

(** [str(n)] of an int, as [f'{n}'] renders it. *)
Definition str_of_int (n : Z) : pystr :=
  map N_of_ascii (list_ascii_of_string (NilZero.string_of_int (Z.to_int n))).

(** [name.split(' ')] *)
Fixpoint split_spaces (name : pystr) : list pystr :=
  match name with
  | [] => [[]]
  | c :: rest =>
      if (c =? 32)%N then [] :: split_spaces rest
      else match split_spaces rest with
           | word :: words => (c :: word) :: words
           | [] => [[c]]
           end
  end.

(** [s.encode('utf-8')], bytes as numbers below 256.  A lone surrogate
    cannot be encoded; numbers above 0x10FFFF are not characters. *)
Definition utf8_encode_char (c : char) : result (list N) :=
  (if c <? 0x80 then Ok [c]
   else if c <? 0x800 then Ok [0xC0 + c / 64; 0x80 + c mod 64]
   else if (0xD800 <=? c) && (c <=? 0xDFFF) then Raise UnicodeEncodeError
   else if c <? 0x10000 then
     Ok [0xE0 + c / 4096; 0x80 + (c / 64) mod 64; 0x80 + c mod 64]
   else if c <? 0x110000 then
     Ok [0xF0 + c / 262144; 0x80 + (c / 4096) mod 64;
         0x80 + (c / 64) mod 64; 0x80 + c mod 64]
   else Raise UnicodeEncodeError)%N.

Fixpoint utf8_encode (s : pystr) : result (list N) :=
  match s with
  | [] => Ok []
  | c :: rest =>
      match utf8_encode_char c, utf8_encode rest with
      | Ok b, Ok bs => Ok (b ++ bs)
      | Raise e, _ => Raise e
      | _, Raise e => Raise e
      end
  end.

(** [s.upper()] on a digest: only the letters a-f occur, the function
    is written for a-z. *)
Definition upper_ascii (a : ascii) : ascii :=
  let n := N_of_ascii a in
  if ((97 <=? n) && (n <=? 122))%N then ascii_of_N (n - 32) else a.

Fixpoint upper (s : string) : string :=
  match s with
  | EmptyString => EmptyString
  | String a rest => String (upper_ascii a) (upper rest)
  end.

(** [s[n:]] on a digest *)
Fixpoint drop_string (n : nat) (s : string) : string :=
  match n, s with
  | O, _ => s
  | S n', String _ rest => drop_string n' rest
  | S _, EmptyString => EmptyString
  end.

(** ** The [string] module *)

Definition code_points (first : N) (count : nat) : pystr :=
  map (fun i => (first + N.of_nat i)%N) (seq 0 count).

Definition ascii_lowercase : pystr := code_points 97 26.
Definition ascii_uppercase : pystr := code_points 65 26.
Definition ascii_letters : pystr := ascii_lowercase ++ ascii_uppercase.
Definition digits : pystr := code_points 48 10.
(** The 32 ASCII characters from 33 to 126 that are neither letters nor
    digits. *)
Definition punctuation : pystr :=
  code_points 33 15 ++ code_points 58 7 ++ code_points 91 6 ++ code_points 123 4.

(** ** The [random] module

    [random.SystemRandom()] reads the operating system's entropy;
    [random.shuffle] and [random.randint] called on the module use the
    module's hidden Mersenne Twister instance.  Each source is a tape of
    numbers; [_randbelow(n)] takes the next number of its tape and
    reduces it below [n], so every value below [n] can come out. *)

(** [x[i], x[j] = x[j], x[i]], for indices in range. *)
Definition swap {A} (i j : nat) (x : list A) : list A :=
  match x !! i, x !! j with
  | Some xi, Some xj => <[j := xi]> (<[i := xj]> x)
  | _, _ => x
  end.

(** [elems.remove(c)], [del elems[elems.index(c)]]: drops the first
    occurrence. *)
Fixpoint remove_first (c : char) (elems : pystr) : pystr :=
  match elems with
  | [] => []
  | e :: rest => if (e =? c)%N then rest else e :: remove_first c rest
  end.

Section Random.
Variable os_urandom : nat -> nat.
Variable mersenne_twister : nat -> nat.

Definition system_randbelow (n : nat) : M nat :=
  fun w => Ok (os_urandom (urandom_reads w) mod n,
               World (S (urandom_reads w)) (twister_steps w) (user_queries w)).

Definition module_randbelow (n : nat) : M nat :=
  fun w => Ok (mersenne_twister (twister_steps w) mod n,
               World (urandom_reads w) (S (twister_steps w)) (user_queries w)).

(** [random.SystemRandom().choice(seq)]: [seq[_randbelow(len(seq))]],
    IndexError on an empty sequence. *)
Definition choice (elems : pystr) : M char :=
  match elems with
  | [] => raise IndexError
  | c0 :: _ => i <- system_randbelow (length elems) ;; ret (nth i elems c0)
  end.

(** [random.shuffle(x)]:
    [for i in reversed(range(1, len(x))): j = randbelow(i + 1); swap]. *)
Fixpoint shuffle_from {A} (i : nat) (x : list A) : M (list A) :=
  match i with
  | O => ret x
  | S i' => j <- module_randbelow (S i) ;; shuffle_from i' (swap i j x)
  end.

Definition shuffle {A} (x : list A) : M (list A) :=
  shuffle_from (length x - 1) x.

(** [random.randint(a, b)] on the module: [a + randbelow(b - a + 1)],
    ValueError on an empty range. *)
Definition randint (a b : Z) : M Z :=
  if (b <? a)%Z then raise ValueError
  else r <- module_randbelow (Z.to_nat (b - a + 1)) ;; ret (a + Z.of_nat r)%Z.

(** One round of a loop that moves a random character of [elems] to
    the end of [password]:
    [c = choice(elems); password += c; elems.remove(c)]. *)
Definition pick_one (st : pystr * pystr) : M (pystr * pystr) :=
  let '(password, elems) := st in
  next_char <- choice elems ;;
  ret (password ++ [next_char], remove_first next_char elems).

(** [[choice(chars) for _ in range(n)]] *)
Fixpoint choices (n : nat) (chars : pystr) : M pystr :=
  match n with
  | O => ret []
  | S n' => c <- choice chars ;;
            cs <- choices n' chars ;;
            ret (c :: cs)
  end.

End Random.

(** ** [openedx/core/djangoapps/user_authn/utils.py] *)

Module UserAuthn.

(** An entry of [settings.AUTH_PASSWORD_VALIDATORS]: a dict with a
    "NAME" and, optionally, an "OPTIONS" dict. *)
Record validator : Type := Validator {
  NAME : string;
  OPTIONS : option (gmap string Z);
}.

Definition known_validators : gmap string string :=
  list_to_map [
    ("common.djangoapps.util.password_policy_validators.MinimumLengthValidator", "min_length");
    ("common.djangoapps.util.password_policy_validators.MaximumLengthValidator", "max_length");
    ("common.djangoapps.util.password_policy_validators.AlphabeticValidator", "min_alphabetic");
    ("common.djangoapps.util.password_policy_validators.UppercaseValidator", "min_upper");
    ("common.djangoapps.util.password_policy_validators.LowercaseValidator", "min_lower");
    ("common.djangoapps.util.password_policy_validators.NumericValidator", "min_numeric");
    ("common.djangoapps.util.password_policy_validators.PunctuationValidator", "min_punctuation");
    ("common.djangoapps.util.password_policy_validators.SymbolValidator", "min_symbol")
  ].

(** Truth value of [complexity.get(rule)]: [None] and [0] are false. *)
Definition truthy (v : option Z) : bool :=
  match v with
  | Some z => negb (z =? 0)%Z
  | None => false
  end.

(** The loop of [password_complexity] over the configured validators;
    [validator["OPTIONS"]] raises KeyError when the entry has none. *)
Fixpoint collect_complexity (password_validators : list validator)
    (complexity : gmap string Z) : result (gmap string Z) :=
  match password_validators with
  | [] => Ok complexity
  | validator :: rest =>
      match known_validators !! NAME validator with
      | Some param_name =>
          match OPTIONS validator with
          | Some options =>
              collect_complexity rest (<[param_name := get0 options param_name]> complexity)
          | None => Raise KeyError
          end
      | None => collect_complexity rest complexity
      end
  end.

(** The step "merge alphabetic with lower and uppercase". *)
Definition merge_alphabetic (complexity : gmap string Z) : gmap string Z :=
  if truthy (complexity !! "min_alphabetic")
     && (truthy (complexity !! "min_lower") || truthy (complexity !! "min_upper"))
  then <["min_alphabetic" :=
           Z.max 0 (get0 complexity "min_alphabetic"
                    - get0 complexity "min_lower"
                    - get0 complexity "min_upper")]> complexity
  else complexity.

Definition password_complexity (AUTH_PASSWORD_VALIDATORS : list validator)
    : result (gmap string Z) :=
  match collect_complexity AUTH_PASSWORD_VALIDATORS ∅ with
  | Ok complexity => Ok (merge_alphabetic complexity)
  | Raise e => Raise e
  end.

Definition non_ascii_characters : pystr :=
  [163; 165; 8364; 169; 174; 8482; 8224; 167; 182; 960; 956; 177]%N.

(** The dict literal [password_rules], in the order [items()] yields it. *)
Definition password_rules : list (string * pystr) :=
  [ ("min_lower", ascii_lowercase);
    ("min_upper", ascii_uppercase);
    ("min_alphabetic", ascii_letters);
    ("min_numeric", digits);
    ("min_punctuation", punctuation);
    ("min_symbol", non_ascii_characters) ].

(** [max(length, complexity.get('min_length'))]: comparing an int
    with None raises TypeError. *)
Definition max_with (length : Z) (min_length : option Z) : result Z :=
  match min_length with
  | Some m => Ok (if (length <? m)%Z then m else length)
  | None => Raise TypeError
  end.

Section GeneratePassword.
Variable os_urandom : nat -> nat.
Variable mersenne_twister : nat -> nat.

(** [for _ in range(needed): ...] for one rule. *)
Definition apply_rule (complexity : gmap string Z) (password : pystr)
    (entry : string * pystr) : M pystr :=
  let '(rule, elems) := entry in
  let needed := get0 complexity rule in
  st <- for_range (range_len needed) (pick_one os_urandom) (password, elems) ;;
  ret (fst st).

Definition generate_password (AUTH_PASSWORD_VALIDATORS : list validator)
    (length : Z) (chars : pystr) : M pystr :=
  if (length <? 8)%Z then raise ValueError
  else
    let password := [] in
    complexity <- lift (password_complexity AUTH_PASSWORD_VALIDATORS) ;;
    password_length <- lift (max_with length (complexity !! "min_length")) ;;
    password <- for_each password_rules (apply_rule complexity) password ;;
    password <-
      (if (Z.of_nat (List.length password) <? password_length)%Z
       then fill <- choices os_urandom
                      (range_len (password_length - Z.of_nat (List.length password)))
                      chars ;;
            ret (password ++ fill)
       else ret password) ;;
    password_list <- shuffle mersenne_twister password ;;
    ret password_list.

End GeneratePassword.

(** The default arguments [length=12, chars=string.ascii_letters + string.digits]. *)
Definition default_length : Z := 12.
Definition default_chars : pystr := ascii_letters ++ digits.

(** *** Username suggestions *)

Section UsernameSuggestions.
Variable mersenne_twister : nat -> nat.
(** [username_exists_or_retired] looks the name up in the user
    table, which other requests change: [user_table n name] is the
    answer to the [n]-th query made. *)
Variable user_table : nat -> pystr -> bool.
(** The constant imported from [openedx.core.djangoapps.user_api.accounts]. *)
Variable USERNAME_MAX_LENGTH : option Z.
(** [str.lower] and the class [\w] of [re], for Unicode text. *)
Variable lower : pystr -> pystr.
Variable word_character : char -> bool.

Definition username_exists_or_retired (username : pystr) : M bool :=
  fun w => Ok (user_table (user_queries w) username,
               World (urandom_reads w) (twister_steps w) (S (user_queries w))).

(** ["".join(re.findall(r"[\w-]+", name))]: the characters of [name]
    that are word characters or hyphens. *)
Definition remove_special_characters_from_name (name : pystr) : pystr :=
  List.filter (fun c => word_character c || (c =? 45)%N) name.

(** [s.replace(c, '')] for a one-character [c]. *)
Definition without (c : char) (s : pystr) : pystr :=
  List.filter (fun x => negb (x =? c)%N) s.

Definition int_ranges : list (Z * Z) :=
  [ (0, 9); (10, 99); (100, 999); (1000, 99999) ]%Z.

(** [for _ in range(n)] with its [break]. *)
Fixpoint attempts (n : nat) (short_username : pystr) (int_range : Z * Z)
    (username_suggestions : list pystr) : M (list pystr) :=
  match n with
  | O => ret username_suggestions
  | S n' =>
      random_int <- randint mersenne_twister int_range.1 int_range.2 ;;
      let suggestion := short_username ++ [95%N] ++ str_of_int random_int in
      taken <- username_exists_or_retired suggestion ;;
      if negb taken then ret (username_suggestions ++ [suggestion])
      else attempts n' short_username int_range username_suggestions
  end.

(** [for int_range in int_ranges] with its [break]. *)
Fixpoint over_ranges (ranges : list (Z * Z)) (short_username : pystr)
    (username_suggestions : list pystr) : M (list pystr) :=
  match ranges with
  | [] => ret username_suggestions
  | int_range :: rest =>
      username_suggestions <-
        attempts 10 short_username int_range username_suggestions ;;
      if (List.length username_suggestions =? 3)%nat then ret username_suggestions
      else over_ranges rest short_username username_suggestions
  end.

Definition generate_username_suggestions (name : pystr) : M (list pystr) :=
  let username_suggestions := [] in
  let max_length := USERNAME_MAX_LENGTH in
  let names := split_spaces name in
  match head names, last names with
  | Some names_0, Some names_last =>
      let first_name := remove_special_characters_from_name (lower names_0) in
      let last_name := remove_special_characters_from_name (lower names_last) in
      username_suggestions <-
        (match first_name with
         | first_name_0 :: _ =>
             if bool_decide (first_name <> last_name) then
               let suggestion := slice_to max_length (first_name ++ last_name) in
               taken <- username_exists_or_retired suggestion ;;
               let username_suggestions :=
                 if negb taken then username_suggestions ++ [suggestion]
                 else username_suggestions in
               let suggestion :=
                 slice_to max_length ([first_name_0] ++ [45%N] ++ last_name) in
               taken <- username_exists_or_retired suggestion ;;
               ret (if negb taken then username_suggestions ++ [suggestion]
                    else username_suggestions)
             else ret username_suggestions
         | [] => ret username_suggestions
         end) ;;
      if (2 <=? List.length first_name)%nat then
        let short_username :=
          match max_length with
          | Some m => slice_to (Some (m - 6)%Z) first_name
          | None => first_name
          end in
        let short_username := without 45%N (without 95%N short_username) in
        over_ranges int_ranges short_username username_suggestions
      else ret username_suggestions
  | _, _ => ret username_suggestions
  end.

End UsernameSuggestions.

(** *** Breached passwords *)

(** What [PwnedPasswordsAPI.range] hands back when it is not [None]:
    the sentinel [HTTP_408_REQUEST_TIMEOUT] after a timeout, or the
    dict from hash suffix to the number of times it was seen. *)
Inductive pwned_response : Type :=
| RequestTimeout
| SuffixCounts (counts : gmap string Z).

(** A value of the dict [properties]. *)
Inductive property : Type :=
| Str (s : string)
| Int (n : Z).

Section CheckPwnedPassword.
(** [hashlib.sha1(bytes).hexdigest()] *)
Variable sha1_hexdigest : list N -> string.
(** [PwnedPasswordsAPI.range], of the package [password_policy]. *)
Variable PwnedPasswordsAPI_range : string -> option pwned_response.
(** [math.log10] and [math.ceil], which compute with floats. *)
Variable float : Type.
Variable math_log10 : Z -> float.
Variable math_ceil : float -> Z.

Definition check_pwned_password (password : pystr) : result (gmap string property) :=
  let properties : gmap string property := ∅ in
  match utf8_encode password with
  | Raise e => Raise e
  | Ok encoded =>
      let password := upper (sha1_hexdigest encoded) in
      let pwned_response := PwnedPasswordsAPI_range password in
      match pwned_response with
      | Some pwned_response =>
          let '(properties, pwned_count) :=
            match pwned_response with
            | RequestTimeout =>
                (<["vulnerability" := Str "unknown"]> properties, 0%Z)
            | SuffixCounts counts =>
                let pwned_count := get0 counts (drop_string 5 password) in
                (<["vulnerability" :=
                    Str (if (0 <? pwned_count)%Z then "yes" else "no")]> properties,
                 pwned_count)
            end in
          if (0 <? pwned_count)%Z
          then Ok (<["frequency" := Int (math_ceil (math_log10 pwned_count))]> properties)
          else Ok properties
      | None => Ok properties
      end
  end.

End CheckPwnedPassword.

End UserAuthn.

(** ** [openedx/core/djangoapps/user_api/accounts/utils.py]

    The older generator, written for Python 2. *)

Module Accounts.

Definition non_ascii_characters : pystr :=
  [163; 165; 8364; 169; 174; 8482; 8224; 167; 182; 960; 956; 177]%N.

(** [''.join(l + ' ' * (n % word_size == word_size - 1 and n < length - 1)
    for n, l in enumerate(password))], from position [n] on. *)
Fixpoint spaced (n word_size length : Z) (password : pystr) : result pystr :=
  match password with
  | [] => Ok []
  | l :: rest =>
      if (word_size =? 0)%Z then Raise ZeroDivisionError
      else
        let space :=
          if ((n mod word_size =? word_size - 1) && (n <? length - 1))%Z
          then [32%N] else [] in
        match spaced (n + 1) word_size length rest with
        | Ok tail => Ok (l :: space ++ tail)
        | Raise e => Raise e
        end
  end.

Section GeneratePassword.
Variable os_urandom : nat -> nat.
Variable mersenne_twister : nat -> nat.
(** [settings.PASSWORD_MIN_LENGTH], the truth value of
    [settings.FEATURES.get('ENFORCE_PASSWORD_POLICY')], and the dict
    that [util.password_policy_validators.password_complexity()]
    returns. *)
Variable PASSWORD_MIN_LENGTH : Z.
Variable ENFORCE_PASSWORD_POLICY : bool.
Variable password_complexity : gmap string Z.

(** [for _ in xrange(n): c = choice(pool); password += c; del pool[pool.index(c)]] *)
Definition draw (n : Z) (pool : pystr) (password : pystr) : M pystr :=
  st <- for_range (range_len n) (pick_one os_urandom) (password, pool) ;;
  ret (fst st).

Definition generate_password (length : Z) (chars : pystr) : M pystr :=
  if (length <? 8)%Z then raise ValueError
  else
    let password := [] in
    let password_length := Z.max length PASSWORD_MIN_LENGTH in
    (* min_non_ascii is only bound when the policy is enforced *)
    let '(min_uppercase, min_lowercase, min_digits, min_words,
          min_punctuation, min_non_ascii) :=
      if ENFORCE_PASSWORD_POLICY then
        let complexity := password_complexity in
        let min_uppercase := get0 complexity "UPPER" in
        let min_lowercase := get0 complexity "LOWER" in
        let min_punctuation := get0 complexity "PUNCTUATION" in
        let min_words := default 1%Z (complexity !! "WORDS") in
        let min_non_ascii := get0 complexity "NON ASCII" in
        let min_numeric := get0 complexity "NUMERIC" in
        let min_digits := get0 complexity "DIGITS" in
        let min_digits := Z.max min_digits min_numeric in
        let min_alphabetic := get0 complexity "ALPHABETIC" in
        let min_lowercase :=
          if (min_uppercase + min_lowercase <? min_alphabetic)%Z
          then (min_alphabetic - min_uppercase)%Z else min_lowercase in
        (min_uppercase, min_lowercase, min_digits, min_words,
         min_punctuation, Some min_non_ascii)
      else (1, 1, 1, 1, 0, None)%Z in
    password <- draw min_digits digits password ;;
    password <- draw min_lowercase ascii_lowercase password ;;
    password <- draw min_uppercase ascii_uppercase password ;;
    password <- draw min_punctuation punctuation password ;;
    min_non_ascii <-
      (match min_non_ascii with
       | Some n => ret n
       | None => raise UnboundLocalError
       end) ;;
    password <- draw min_non_ascii non_ascii_characters password ;;
    let policies := (min_uppercase + min_lowercase + min_digits + min_punctuation)%Z in
    fill <- choices os_urandom (range_len (password_length - policies)) chars ;;
    let password := password ++ fill in
    password_list <- shuffle mersenne_twister password ;;
    let password := password_list in
    if (1 <? min_words)%Z then
      let word_size := (password_length / min_words)%Z in
      lift (spaced 0 word_size length password)
    else ret password.

End GeneratePassword.

End Accounts.

(** ** Vocabulary of the properties *)

Import UserAuthn.

(** How many characters of [s] belong to the class [cls]. *)
Definition count_in (cls : pystr) (s : pystr) : nat :=
  length (filter (fun c => c ∈ cls) s).

(** What one rule contributes to the password. *)
Definition picked_for (complexity : gmap string Z) (entry : string * pystr)
    (picked : pystr) : Prop :=
  length picked = range_len (get0 complexity entry.1) /\
  Forall (fun c => c ∈ entry.2) picked /\
  (NoDup entry.2 -> NoDup picked) /\
  length picked <= length entry.2.

(** Every rule asks for no more characters than its pool holds. *)
Definition within_pools (complexity : gmap string Z) (rules : list (string * pystr)) : Prop :=
  Forall (fun entry => range_len (get0 complexity entry.1) <= length entry.2) rules.

(** The number of characters the rules ask for. *)
Definition required (complexity : gmap string Z) (rules : list (string * pystr)) : nat :=
  sum_list (map (fun entry => range_len (get0 complexity entry.1)) rules).

(** The per-class minimums of a policy, added up. *)
Definition summed_minimums (complexity : gmap string Z) : Z :=
  (get0 complexity "min_lower" + get0 complexity "min_upper"
   + get0 complexity "min_alphabetic" + get0 complexity "min_numeric"
   + get0 complexity "min_punctuation" + get0 complexity "min_symbol")%Z.

(** No rule asks for more than the size of its pool. *)
Definition pool_sizes_respected (complexity : gmap string Z) : Prop :=
  (get0 complexity "min_lower" <= 26 /\ get0 complexity "min_upper" <= 26 /\
   get0 complexity "min_alphabetic" <= 52 /\ get0 complexity "min_numeric" <= 10 /\
   get0 complexity "min_punctuation" <= 32 /\ get0 complexity "min_symbol" <= 12)%Z.

(** Every entry of a policy is a non-negative integer. *)
Definition non_negative (complexity : gmap string Z) : Prop :=
  forall rule v, complexity !! rule = Some v -> (0 <= v)%Z.

(** ** Sample configurations *)

Definition validator_of (class_name rule : string) (minimum : Z) : validator :=
  Validator ("common.djangoapps.util.password_policy_validators." +:+ class_name)
            (Some {[ rule := minimum ]}).

(** A policy that uses every rule. *)
Definition sample_validators : list validator :=
  [ validator_of "MinimumLengthValidator" "min_length" 8;
    validator_of "AlphabeticValidator" "min_alphabetic" 5;
    validator_of "UppercaseValidator" "min_upper" 2;
    validator_of "LowercaseValidator" "min_lower" 1;
    validator_of "NumericValidator" "min_numeric" 2;
    validator_of "PunctuationValidator" "min_punctuation" 1;
    validator_of "SymbolValidator" "min_symbol" 1 ].

Definition sample_policy : gmap string Z :=
  {[ "min_length" := 8%Z; "min_alphabetic" := 5%Z; "min_upper" := 2%Z;
     "min_lower" := 1%Z; "min_numeric" := 2%Z; "min_punctuation" := 1%Z;
     "min_symbol" := 1%Z ]}.

(** A policy whose rules ask for more characters than its minimum length. *)
Definition lowercase_validators : list validator :=
  [ validator_of "MinimumLengthValidator" "min_length" 8;
    validator_of "LowercaseValidator" "min_lower" 10 ].

Definition lowercase_policy : gmap string Z :=
  {[ "min_length" := 8%Z; "min_lower" := 10%Z ]}.

(** A policy that asks for more digits than there are. *)
Definition eleven_digits_validators : list validator :=
  [ validator_of "MinimumLengthValidator" "min_length" 8;
    validator_of "NumericValidator" "min_numeric" 11 ].

Definition eleven_digits_policy : gmap string Z :=
  {[ "min_length" := 8%Z; "min_numeric" := 11%Z ]}.

(** A policy without a minimum length. *)
Definition no_length_validators : list validator :=
  [ validator_of "NumericValidator" "min_numeric" 1 ].

Definition no_length_policy : gmap string Z := {[ "min_numeric" := 1%Z ]}.

(** Two tapes of random numbers and the state before any draw. *)
Definition sample_urandom (n : nat) : nat := 7 * n + 3.
Definition sample_twister (n : nat) : nat := 5 * n + 1.
Definition fresh_world : world := World 0 0 0.

(** What [generate_password] returns for [sample_validators] and
    length 12, and for [lowercase_validators] and length 8, on the two
    sample tapes. *)
Definition sample_password : pystr :=
  [100; 83; 121; 71; 108; 101; 177; 56; 63; 115; 48; 75]%N.
Definition lowercase_password : pystr :=
  [105; 109; 100; 119; 121; 117; 116; 98; 104; 108]%N.

(** [username] was reported free by one of the queries numbered from
    [first] up to, not including, [next]. *)
Definition found_free (user_table : nat -> pystr -> bool) (first next : nat)
    (username : pystr) : Prop :=
  exists t, first <= t < next /\ user_table t username = false.

(** A user table in which every other query finds the name taken, the
    letters, digits and underscore of ASCII as word characters, and the
    name "ann lee". *)
Definition sample_user_table (n : nat) (username : pystr) : bool := Nat.even n.
Definition sample_word_character (c : char) : bool :=
  ((48 <=? c) && (c <=? 57) || (65 <=? c) && (c <=? 90)
   || (97 <=? c) && (c <=? 122) || (c =? 95))%N.
Definition sample_name : pystr := [97; 110; 110; 32; 108; 101; 101]%N.
(** "annlee", "a-lee", and "ann_" followed by a number. *)
Definition annlee : pystr := [97; 110; 110; 108; 101; 101]%N.
Definition a_lee : pystr := [97; 45; 108; 101; 101]%N.
Definition ann_ (number : pystr) : pystr := [97; 110; 110; 95]%N ++ number.

(** A digest, a lookup service that has seen every suffix 37 times, and
    an exact [ceil(log10(n))] on integers standing in for the floats. *)
Definition sample_sha1_hexdigest (encoded : list N) : string :=
  "0123456789abcdef0123456789abcdef01234567".
Definition sample_range (digest : string) : option pwned_response :=
  Some (SuffixCounts {[ drop_string 5 digest := 37%Z ]}).
Definition timed_out_range (digest : string) : option pwned_response :=
  Some RequestTimeout.
Definition sample_ceil (n : Z) : Z :=
  if (n <=? 1)%Z then 0%Z
  else Z.of_nat (String.length (NilZero.string_of_uint (N.to_uint (Z.to_N (n - 1))))).

(** ** The rest of [openedx/core/djangoapps/user_authn/utils.py] *)

Module UserAuthnUtils.

Definition _UNSAFE_URL_BYTES_TO_REMOVE : pystr := [9; 13; 10]%N.

(** [for byte in _UNSAFE_URL_BYTES_TO_REMOVE: url = url.replace(byte, "")] *)
Definition _remove_unsafe_bytes_from_url (url : pystr) : pystr :=
  foldl (fun url byte => without byte url) url _UNSAFE_URL_BYTES_TO_REMOVE.

(** What [is_safe_login_or_logout_redirect] can raise:
    [Application.DoesNotExist] from [Application.objects.get], and the
    ValueError of [urlparse] on a malformed address. *)
Inductive redirect_exn : Type :=
| DoesNotExist
| InvalidURL.

Section Redirect.
(** [getattr(settings, 'LOGIN_REDIRECT_WHITELIST', [])] *)
Variable LOGIN_REDIRECT_WHITELIST : list pystr.
(** [Application.objects.get(client_id=...)]: nothing when no
    application has the id; otherwise the application, given by the
    test [redirect_to in application.redirect_uris]. *)
Variable Application_get : pystr -> option (pystr -> bool).
(** [urlparse(url).netloc], nothing when [urlparse] raises. *)
Variable urlparse_netloc : pystr -> option pystr.
(** [django.utils.http.is_safe_url(url, allowed_hosts=..., require_https=...)] *)
Variable is_safe_url : pystr -> gset pystr -> bool -> bool.

Definition is_safe_login_or_logout_redirect (redirect_to request_host : pystr)
    (dot_client_id : option pystr) (require_https : bool) : redirect_exn + bool :=
  let login_redirect_whitelist : gset pystr := list_to_set LOGIN_REDIRECT_WHITELIST in
  let login_redirect_whitelist := login_redirect_whitelist ∪ {[ request_host ]} in
  let redirect_to := _remove_unsafe_bytes_from_url redirect_to in
  let after_client : redirect_exn + gset pystr :=
    match dot_client_id with
    | Some (c :: id) =>
        match Application_get (c :: id) with
        | Some application_redirect_uris =>
            if application_redirect_uris redirect_to then
              match urlparse_netloc redirect_to with
              | Some netloc => inr (login_redirect_whitelist ∪ {[ netloc ]})
              | None => inl InvalidURL
              end
            else inr login_redirect_whitelist
        | None => inl DoesNotExist
        end
    | Some [] | None => inr login_redirect_whitelist
    end in
  match after_client with
  | inr login_redirect_whitelist =>
      inr (is_safe_url redirect_to login_redirect_whitelist require_https)
  | inl e => inl e
  end.

End Redirect.

(** [sub in s] for two strings: [sub] starts at some position of [s]. *)
Fixpoint starts_with (sub s : pystr) : bool :=
  match sub, s with
  | [], _ => true
  | _ :: _, [] => false
  | a :: sub', b :: s' => (a =? b)%N && starts_with sub' s'
  end.

Fixpoint contains (sub s : pystr) : bool :=
  starts_with sub s ||
  match s with
  | [] => false
  | _ :: s' => contains sub s'
  end.

(** "v1" and "register" *)
Definition v1 : pystr := [118; 49]%N.
Definition register : pystr := [114; 101; 103; 105; 115; 116; 101; 114]%N.

(** ['v1' in request.get_full_path() and 'register' not in
    request.get_full_path()], as a function of the path. *)
Definition is_registration_api_v1 (full_path : pystr) : bool :=
  contains v1 full_path && negb (contains register full_path).

(** [re.findall] of a pattern [[...]+] for a character class: the
    maximal runs of characters of the class, from left to right; the
    run being read is [current]. *)
Fixpoint findall_from (class : char -> bool) (current s : pystr) : list pystr :=
  match s with
  | [] => match current with [] => [] | _ => [current] end
  | c :: rest =>
      if class c then findall_from class (current ++ [c]) rest
      else match current with [] => [] | _ => [current] end
           ++ findall_from class [] rest
  end.

Definition findall_class (class : char -> bool) (s : pystr) : list pystr :=
  findall_from class [] s.

End UserAuthnUtils.

(** ** Samples for the rest of [user_authn/utils.py] *)

(** "/a", a tab, "b", a line feed; and "/ab". *)
Definition sample_url : pystr := [47; 97; 9; 98; 10]%N.
Definition sample_clean_url : pystr := [47; 97; 98]%N.
(** A whitelist with the host "w", the request host "h", one
    application "c" that lists every address, the network location "n"
    for every address, and a judge that accepts an address when "n" is
    allowed. *)
Definition sample_whitelist : list pystr := [[119]%N].
Definition sample_host : pystr := [104]%N.
Definition sample_applications (client_id : pystr) : option (pystr -> bool) :=
  if bool_decide (client_id = [99]%N) then Some (fun _ => true) else None.
Definition sample_netloc (url : pystr) : option pystr := Some [110]%N.
Definition sample_is_safe_url (url : pystr) (allowed_hosts : gset pystr)
    (require_https : bool) : bool :=
  bool_decide ([110]%N ∈ allowed_hosts).

(** ** Vocabulary for the further properties *)

(** The validator configures the rule. *)
Definition configures (rule : string) (v : validator) : Prop :=
  known_validators !! NAME v = Some rule.

(** The eight rule names. *)
Definition rule_names : list string :=
  [ "min_length"; "max_length"; "min_alphabetic"; "min_upper"; "min_lower";
    "min_numeric"; "min_punctuation"; "min_symbol" ].

(** The two dicts hold the same entries, [max_length] aside. *)
Definition agree_off_max_length (c1 c2 : gmap string Z) : Prop :=
  forall rule, rule <> "max_length" -> c1 !! rule = c2 !! rule.

(** A configuration with a maximum length of 10 among its entries. *)
Definition max_length_validator : validator :=
  validator_of "MaximumLengthValidator" "max_length" 10.

(** A recognised validator without OPTIONS, after one that is fine. *)
Definition broken_validators : list validator :=
  [ validator_of "MinimumLengthValidator" "min_length" 8;
    Validator "common.djangoapps.util.password_policy_validators.NumericValidator" None ].

(** A character that [str.encode('utf-8')] refuses: a surrogate, or a
    number that is no code point. *)
Definition unencodable (c : char) : Prop :=
  (0xD800 <= c <= 0xDFFF \/ 0x110000 <= c)%N.

(** The first word of the name, lower-cased and cleaned, as
    [generate_username_suggestions] computes it. *)
Definition first_name_of (lower : pystr -> pystr) (word_character : char -> bool)
    (name : pystr) : pystr :=
  remove_special_characters_from_name word_character
    (lower (default [] (head (split_spaces name)))).

(** The last word of the name, lower-cased and cleaned. *)
Definition last_name_of (lower : pystr -> pystr) (word_character : char -> bool)
    (name : pystr) : pystr :=
  remove_special_characters_from_name word_character
    (lower (default [] (last (split_spaces name)))).

(** [str(n)] has at most five characters for each of the [count]
    integers from [n] on. *)
Fixpoint at_most_five_digits (count : nat) (n : Z) : bool :=
  match count with
  | O => true
  | S count' =>
      (length (str_of_int n) <=? 5)%nat && at_most_five_digits count' (n + 1)
  end.


(** The minimums the older generator works with when the policy is
    enforced: lower-case letters after the alphabetic adjustment, digits
    as the larger of DIGITS and NUMERIC, and the sum it calls
    [policies]. *)
Definition legacy_lowercase (complexity : gmap string Z) : Z :=
  if (get0 complexity "UPPER" + get0 complexity "LOWER"
      <? get0 complexity "ALPHABETIC")%Z
  then (get0 complexity "ALPHABETIC" - get0 complexity "UPPER")%Z
  else get0 complexity "LOWER".

Definition legacy_digits (complexity : gmap string Z) : Z :=
  Z.max (get0 complexity "DIGITS") (get0 complexity "NUMERIC").

Definition legacy_policies (complexity : gmap string Z) : Z :=
  (get0 complexity "UPPER" + legacy_lowercase complexity
   + legacy_digits complexity + get0 complexity "PUNCTUATION")%Z.

(** A PASSWORD_COMPLEXITY with two upper-case letters, three digits and
    one other symbol; one that asks for 20 words; one with three words. *)
Definition legacy_sample_complexity : gmap string Z :=
  {[ "UPPER" := 2%Z; "DIGITS" := 3%Z; "NON ASCII" := 1%Z ]}.
Definition legacy_wordy_complexity : gmap string Z := {[ "WORDS" := 20%Z ]}.


(** * Properties *)

(** ** The monad *)

Lemma bind_Ok {A B} (m : M A) (k : A -> M B) w b w' :
  bind m k w = Ok (b, w') <->
  exists a w1, m w = Ok (a, w1) /\ k a w1 = Ok (b, w').
Proof.
  unfold bind. split.
  - destruct (m w) as [[a w1]|e]; [eauto | discriminate].
  - intros (a & w1 & -> & Hk). exact Hk.
Qed.

Lemma bind_Raise {A B} (m : M A) (k : A -> M B) w e :
  bind m k w = Raise e <->
  m w = Raise e \/ exists a w1, m w = Ok (a, w1) /\ k a w1 = Raise e.
Proof.
  unfold bind. split.
  - destruct (m w) as [[a w1]|e']; [eauto | intros [= ->]; auto].
  - intros [-> | (a & w1 & -> & Hk)]; [reflexivity | exact Hk].
Qed.

Lemma ret_Ok {A} (a b : A) w w' : ret a w = Ok (b, w') <-> a = b /\ w = w'.
Proof. unfold ret. split; [intros [= -> ->]; auto | intros [-> ->]; auto]. Qed.

Lemma lift_Ok {A} (r : result A) a w w' :
  lift r w = Ok (a, w') <-> r = Ok a /\ w = w'.
Proof.
  unfold lift. destruct r; split; try intros [= -> ->]; try intros [[= ->] ->]; auto.
Qed.

(** Break a successful run into the successful runs of its steps. *)
Ltac inv_run H :=
  repeat match type of H with
  | bind _ _ _ = Ok _ =>
      let a := fresh "a" in let w := fresh "w" in let H1 := fresh "Hrun" in
      apply bind_Ok in H; destruct H as (a & w & H1 & H)
  | ret _ _ = Ok _ => apply ret_Ok in H; destruct H as [? ?]; subst
  | lift _ _ = Ok _ => apply lift_Ok in H; destruct H as [H ?]; subst
  | raise _ _ = Ok _ => discriminate H
  end.

(** ** The random module *)

Section RandomFacts.
Variable os_urandom : nat -> nat.
Variable mersenne_twister : nat -> nat.

Lemma system_randbelow_Ok n i w w' :
  system_randbelow os_urandom n w = Ok (i, w') ->
  (n <> 0 -> i < n) /\
  w' = World (S (urandom_reads w)) (twister_steps w) (user_queries w).
Proof.
  unfold system_randbelow. intros H.
  assert (i = os_urandom (urandom_reads w) mod n) as -> by congruence.
  split; [apply Nat.mod_upper_bound | congruence].
Qed.

Lemma choice_Ok elems c w w' :
  choice os_urandom elems w = Ok (c, w') ->
  c ∈ elems /\
  w' = World (S (urandom_reads w)) (twister_steps w) (user_queries w).
Proof.
  destruct elems as [|c0 rest]; [discriminate|].
  unfold choice. intros H. inv_run H.
  apply system_randbelow_Ok in Hrun as [Hlt ->]. split; [|reflexivity].
  apply list_elem_of_In, nth_In, Hlt. discriminate.
Qed.

Lemma choice_total elems w :
  elems <> [] -> exists c w', choice os_urandom elems w = Ok (c, w').
Proof.
  destruct elems as [|c0 rest]; [congruence|]. intros _.
  unfold choice, bind, system_randbelow, ret. eauto.
Qed.

Lemma choice_empty w : choice os_urandom [] w = Raise IndexError.
Proof. reflexivity. Qed.

Lemma swap_length {A} i j (x : list A) : length (swap i j x) = length x.
Proof.
  unfold swap. destruct (x !! i), (x !! j); try reflexivity.
  by rewrite !length_insert.
Qed.

Lemma swap_Permutation {A} i j (x : list A) : swap i j x ≡ₚ x.
Proof.
  unfold swap.
  destruct (x !! i) as [xi|] eqn:Hi; [|reflexivity].
  destruct (x !! j) as [xj|] eqn:Hj; [|reflexivity].
  destruct (decide (i = j)) as [->|Hne].
  - assert (xi = xj) as -> by congruence.
    rewrite list_insert_insert_eq. by rewrite list_insert_id.
  - apply Permutation_inj. split.
    + by rewrite !length_insert.
    + exists (fun k => if decide (k = i) then j else if decide (k = j) then i else k).
      split.
      * intros a b. repeat case_decide; subst; congruence.
      * intros k. repeat case_decide; subst.
        -- rewrite list_lookup_insert_ne by done.
           rewrite list_lookup_insert_eq; [congruence|]. by eapply lookup_lt_Some.
        -- rewrite list_lookup_insert_eq; [congruence|].
           rewrite length_insert. by eapply lookup_lt_Some.
        -- by rewrite !list_lookup_insert_ne.
Qed.

Lemma shuffle_from_Ok {A} i (x : list A) w :
  exists y, shuffle_from mersenne_twister i x w
            = Ok (y, World (urandom_reads w) (i + twister_steps w) (user_queries w))
            /\ y ≡ₚ x.
Proof.
  revert x w. induction i as [|i IH]; intros x w.
  - exists x. destruct w. split; reflexivity.
  - cbn [shuffle_from]. unfold bind, module_randbelow.
    destruct (IH (swap (S i) (mersenne_twister (twister_steps w) mod S (S i)) x)
                (World (urandom_reads w) (S (twister_steps w)) (user_queries w)))
      as (y & Hy & Hperm).
    exists y. split.
    + rewrite Hy. cbn. do 3 f_equal. lia.
    + rewrite Hperm. apply swap_Permutation.
Qed.

Lemma shuffle_Ok {A} (x : list A) w :
  exists y, shuffle mersenne_twister x w
            = Ok (y, World (urandom_reads w) (length x - 1 + twister_steps w) (user_queries w))
            /\ y ≡ₚ x.
Proof. apply shuffle_from_Ok. Qed.

End RandomFacts.

(** ** Sampling without replacement *)

Lemma remove_first_length c elems :
  c ∈ elems -> S (length (remove_first c elems)) = length elems.
Proof.
  induction elems as [|e rest IH]; [by intros ?%elem_of_nil|].
  intros Hin. cbn. destruct (N.eqb_spec e c) as [->|Hne]; [reflexivity|].
  cbn. f_equal. apply IH. apply elem_of_cons in Hin as [->|]; [congruence|done].
Qed.

Lemma remove_first_subseteq c elems x :
  x ∈ remove_first c elems -> x ∈ elems.
Proof.
  induction elems as [|e rest IH]; [done|]. cbn.
  destruct (N.eqb_spec e c) as [->|Hne]; rewrite !elem_of_cons; [auto|].
  intros [->|]; auto.
Qed.

Lemma remove_first_NoDup c elems :
  NoDup elems -> NoDup (remove_first c elems) /\ c ∉ remove_first c elems.
Proof.
  induction 1 as [|e rest Hnotin Hnd [IH1 IH2]]; [split; [constructor | apply not_elem_of_nil]|].
  cbn. destruct (N.eqb_spec e c) as [->|Hne]; [done|]. split.
  - constructor; [|done]. intros ?%remove_first_subseteq. done.
  - rewrite elem_of_cons. intros [->|]; [congruence|done].
Qed.

Section Sampling.
Variable os_urandom : nat -> nat.

Lemma pick_one_Ok password elems st w w' :
  pick_one os_urandom (password, elems) w = Ok (st, w') ->
  exists c, c ∈ elems /\ st = (password ++ [c], remove_first c elems) /\
    w' = World (S (urandom_reads w)) (twister_steps w) (user_queries w).
Proof.
  unfold pick_one. intros H. inv_run H.
  apply choice_Ok in Hrun as [Hin ->]. eauto.
Qed.

(** A completed inner loop appended [n] characters of the pool, never
    the same one twice when the pool has no repetition, and the pool
    was large enough. *)
Lemma sample_Ok n password elems st w w' :
  for_range n (pick_one os_urandom) (password, elems) w = Ok (st, w') ->
  exists picked,
    st.1 = password ++ picked /\
    length picked = n /\
    Forall (fun c => c ∈ elems) picked /\
    (NoDup elems -> NoDup picked) /\
    n <= length elems /\
    w' = World (n + urandom_reads w) (twister_steps w) (user_queries w).
Proof.
  revert password elems w. induction n as [|n IH]; intros password elems w H.
  - cbn [for_range] in H. inv_run H. exists []. destruct w'.
    rewrite app_nil_r. repeat split; auto using NoDup_nil_2 with lia.
  - cbn [for_range] in H. inv_run H.
    destruct a as [password1 elems1].
    apply pick_one_Ok in Hrun as (c & Hin & [= -> ->] & ->).
    apply IH in H as (picked & Hst & Hlen & Hall & Hnd & Hle & ->).
    exists (c :: picked). cbn [urandom_reads twister_steps user_queries].
    split; [by rewrite Hst, <- app_assoc|].
    split; [cbn; lia|].
    split; [constructor; [done|]; eapply Forall_impl; [exact Hall|];
            intros x; apply remove_first_subseteq|].
    split.
    { intros Hnodup. destruct (remove_first_NoDup c elems Hnodup) as [Hnd' Hnotin].
      constructor; [|auto]. intros Hc. apply Hnotin.
      rewrite Forall_forall in Hall. auto. }
    split; [pose proof (remove_first_length c elems Hin); lia|].
    f_equal; lia.
Qed.

Lemma sample_total n password elems w :
  n <= length elems ->
  exists st w', for_range n (pick_one os_urandom) (password, elems) w = Ok (st, w').
Proof.
  revert password elems w. induction n as [|n IH]; intros password elems w Hle.
  - cbn. unfold ret. eauto.
  - cbn [for_range].
    destruct (choice_total os_urandom elems w) as (c & w1 & Hc).
    { intros ->. cbn in Hle. lia. }
    pose proof (choice_Ok _ _ _ _ _ Hc) as [Hin _].
    destruct (IH (password ++ [c]) (remove_first c elems) w1) as (st & w' & Hst).
    { pose proof (remove_first_length c elems Hin). lia. }
    exists st, w'. apply bind_Ok.
    exists (password ++ [c], remove_first c elems), w1. split; [|done].
    unfold pick_one. apply bind_Ok. exists c, w1. split; [done|reflexivity].
Qed.

Lemma sample_short n password elems w :
  length elems < n ->
  for_range n (pick_one os_urandom) (password, elems) w = Raise IndexError.
Proof.
  intros Hlt.
  destruct (for_range n (pick_one os_urandom) (password, elems) w)
    as [[st w']|e] eqn:Hrun.
  - apply sample_Ok in Hrun as (? & _ & _ & _ & _ & Hle & _). lia.
  - f_equal. revert password elems w Hlt Hrun.
    induction n as [|n IH]; intros password elems w Hlt Hrun; [discriminate|].
    cbn [for_range] in Hrun. apply bind_Raise in Hrun as [Hrun|(st & w1 & Hp & Hrun)].
    + unfold pick_one in Hrun. apply bind_Raise in Hrun as [Hrun|(? & ? & _ & [=])].
      destruct elems; [by injection Hrun | discriminate].
    + destruct st as [password1 elems1].
      apply pick_one_Ok in Hp as (c & Hin & [= -> ->] & ->).
      eapply IH; [|exact Hrun].
      pose proof (remove_first_length c elems Hin). lia.
Qed.

End Sampling.

(** ** The rule loop of [generate_password] *)

Lemma picked_for_required complexity rules picks :
  Forall2 (picked_for complexity) rules picks ->
  length (concat picks) = required complexity rules.
Proof.
  induction 1 as [|entry picked rules picks (Hlen & _) _ IH]; [reflexivity|].
  cbn. rewrite length_app, IH, Hlen. reflexivity.
Qed.

Lemma picked_for_within_pools complexity rules picks :
  Forall2 (picked_for complexity) rules picks -> within_pools complexity rules.
Proof.
  induction 1 as [|entry picked rules picks (Hlen & _ & _ & Hle) _ IH]; constructor.
  - by rewrite <- Hlen.
  - exact IH.
Qed.

Section Rules.
Variable os_urandom : nat -> nat.

Lemma apply_rule_Ok complexity password entry password' w w' :
  apply_rule os_urandom complexity password entry w = Ok (password', w') ->
  exists picked,
    password' = password ++ picked /\
    picked_for complexity entry picked /\
    w' = World (length picked + urandom_reads w) (twister_steps w) (user_queries w).
Proof.
  destruct entry as [rule elems]. unfold apply_rule. intros H. inv_run H.
  apply sample_Ok in Hrun as (picked & Hst & Hlen & Hall & Hnd & Hle & ->).
  exists picked. unfold picked_for. cbn [fst snd]. rewrite Hlen. auto 10.
Qed.

Lemma rules_Ok complexity rules password password' w w' :
  for_each rules (apply_rule os_urandom complexity) password w = Ok (password', w') ->
  exists picks,
    password' = password ++ concat picks /\
    Forall2 (picked_for complexity) rules picks /\
    w' = World (length (concat picks) + urandom_reads w) (twister_steps w) (user_queries w).
Proof.
  revert password w. induction rules as [|entry rules IH]; intros password w H.
  - cbn [for_each] in H. inv_run H. exists []. destruct w'. cbn.
    by rewrite app_nil_r.
  - cbn [for_each] in H. inv_run H.
    apply apply_rule_Ok in Hrun as (picked & -> & Hpicked & ->).
    apply IH in H as (picks & -> & Hpicks & ->).
    exists (picked :: picks). cbn [concat urandom_reads twister_steps user_queries].
    split; [by rewrite app_assoc|]. split; [by constructor|].
    rewrite length_app. f_equal. lia.
Qed.

Lemma rules_total complexity rules password w :
  within_pools complexity rules ->
  exists password' w',
    for_each rules (apply_rule os_urandom complexity) password w = Ok (password', w').
Proof.
  intros Hpools. revert password w.
  induction Hpools as [|[rule elems] rules Hle _ IH]; intros password w.
  - cbn. unfold ret. eauto.
  - cbn [fst snd] in Hle.
    destruct (sample_total os_urandom _ password elems w Hle) as (st & w1 & Hst).
    destruct (IH st.1 w1) as (password' & w' & Hrest).
    exists password', w'. cbn [for_each]. apply bind_Ok. exists st.1, w1.
    split; [|done]. unfold apply_rule. apply bind_Ok. exists st, w1. by split.
Qed.

(** A rule that asks for more than its pool holds stops the loop. *)
Lemma rules_short complexity rules password w :
  ~ within_pools complexity rules ->
  for_each rules (apply_rule os_urandom complexity) password w = Raise IndexError.
Proof.
  revert password w. induction rules as [|[rule elems] rules IH]; intros password w Hnot.
  - destruct Hnot. constructor.
  - cbn [for_each]. unfold bind at 1.
    destruct (decide (range_len (get0 complexity rule) <= length elems)) as [Hle|Hgt].
    + destruct (sample_total os_urandom _ password elems w Hle) as (st & w1 & Hst).
      unfold apply_rule. unfold bind at 1. rewrite Hst. cbn [ret].
      apply IH. intros Hrest. apply Hnot. by constructor.
    + unfold apply_rule. unfold bind at 1.
      rewrite sample_short by lia. reflexivity.
Qed.

Lemma choices_Ok n chars fill w w' :
  choices os_urandom n chars w = Ok (fill, w') ->
  length fill = n /\ Forall (fun c => c ∈ chars) fill /\
  w' = World (n + urandom_reads w) (twister_steps w) (user_queries w).
Proof.
  revert fill w. induction n as [|n IH]; intros fill w H.
  - cbn [choices] in H. inv_run H. destruct w'. auto.
  - cbn [choices] in H. inv_run H.
    apply choice_Ok in Hrun as [Hin ->].
    apply IH in Hrun0 as (Hlen & Hall & ->).
    cbn [length urandom_reads twister_steps user_queries].
    split; [lia|]. split; [by constructor|]. f_equal. lia.
Qed.

Lemma choices_total n chars w :
  chars <> [] \/ n = 0 ->
  exists fill w', choices os_urandom n chars w = Ok (fill, w').
Proof.
  revert w. induction n as [|n IH]; intros w Hchars.
  - cbn. unfold ret. eauto.
  - destruct Hchars as [Hchars|]; [|lia].
    destruct (choice_total os_urandom chars w Hchars) as (c & w1 & Hc).
    destruct (IH w1 (or_introl Hchars)) as (fill & w' & Hfill).
    exists (c :: fill), w'. cbn [choices]. apply bind_Ok. exists c, w1.
    split; [done|]. apply bind_Ok. exists fill, w'. by split.
Qed.

End Rules.

(** ** Anatomy of a run of [generate_password] *)

Lemma max_with_Ok length min_length target :
  max_with length min_length = Ok target <->
  exists m, min_length = Some m /\ target = Z.max length m.
Proof.
  unfold max_with. destruct min_length as [m|]; split.
  - intros [= <-]. exists m. split; [done|]. destruct (Z.ltb_spec length m); lia.
  - intros (? & [= <-] & ->). f_equal. destruct (Z.ltb_spec length m); lia.
  - discriminate.
  - intros (? & [=] & _).
Qed.

Section GeneratePassword.
Variable os_urandom : nat -> nat.
Variable mersenne_twister : nat -> nat.

Local Abbreviation generate_password :=
  (UserAuthn.generate_password os_urandom mersenne_twister).

(** A returned password is a rearrangement of what the six rules
    picked followed by the fill. *)
Lemma generate_password_Ok validators length chars w s w' :
  generate_password validators length chars w = Ok (s, w') ->
  exists complexity min_length picks fill,
    (8 <= length)%Z /\
    password_complexity validators = Ok complexity /\
    complexity !! "min_length" = Some min_length /\
    Forall2 (picked_for complexity) password_rules picks /\
    Forall (fun c => c ∈ chars) fill /\
    List.length fill
      = Z.to_nat (Z.max length min_length - Z.of_nat (required complexity password_rules)) /\
    s ≡ₚ concat picks ++ fill /\
    w' = World (List.length s + urandom_reads w)
               (List.length s - 1 + twister_steps w) (user_queries w).
Proof.
  unfold UserAuthn.generate_password.
  destruct (Z.ltb_spec length 8) as [|Hlen]; [discriminate|].
  intros H.
  apply bind_Ok in H as (complexity & w0 & [Hc <-]%lift_Ok & H).
  apply bind_Ok in H as (target & w0 & [Hmax <-]%lift_Ok & H).
  apply max_with_Ok in Hmax as (min_length & Hmin & ->).
  apply bind_Ok in H as (password & w1 & Hrules & H).
  apply rules_Ok in Hrules as (picks & Hpw & Hpicks & ->).
  rewrite app_nil_l in Hpw. subst password.
  pose proof (picked_for_required _ _ _ Hpicks) as Hreq.
  apply bind_Ok in H as (password & w2 & Hfill & H).
  apply bind_Ok in H as (y & w3 & Hshuffle & [<- <-]%ret_Ok).
  destruct (shuffle_Ok mersenne_twister password w2) as (y' & Hy & Hperm).
  rewrite Hy in Hshuffle. injection Hshuffle as -> <-.
  exists complexity, min_length, picks.
  destruct (Z.ltb_spec (Z.of_nat (List.length (concat picks))) (Z.max length min_length))
    as [Hshort|Hlong].
  - apply bind_Ok in Hfill as (fill & w3 & Hchoices & [<- <-]%ret_Ok).
    apply choices_Ok in Hchoices as (Hfill & Hall & ->).
    exists fill. rewrite <- Hreq. repeat split; try done.
    rewrite Hperm, length_app, Hfill.
    cbn [urandom_reads twister_steps user_queries]. f_equal. lia.
  - apply ret_Ok in Hfill as [<- <-]. exists []. rewrite app_nil_r, <- Hreq.
    repeat split; try done; try (cbn; lia).
    rewrite Hperm. cbn [urandom_reads twister_steps user_queries]. f_equal; lia.
Qed.

Lemma generate_password_length validators length chars w s w' complexity min_length :
  generate_password validators length chars w = Ok (s, w') ->
  password_complexity validators = Ok complexity ->
  complexity !! "min_length" = Some min_length ->
  Z.of_nat (List.length s)
  = Z.max (Z.max length min_length) (Z.of_nat (required complexity password_rules)).
Proof.
  intros (c & m & picks & fill & _ & Hc & Hm & Hpicks & _ & Hfill & Hperm & _)%generate_password_Ok
         Hc' Hm'.
  rewrite Hc in Hc'. injection Hc' as ->. rewrite Hm in Hm'. injection Hm' as ->.
  rewrite Hperm, length_app, Hfill, (picked_for_required _ _ _ Hpicks). lia.
Qed.

(** When the configuration is readable, names a minimum length, asks
    no rule for more than its pool, and there is something to fill
    with, a password is returned. *)
Lemma generate_password_total validators length chars w complexity min_length :
  (8 <= length)%Z ->
  password_complexity validators = Ok complexity ->
  complexity !! "min_length" = Some min_length ->
  within_pools complexity password_rules ->
  chars <> [] \/ (Z.max length min_length <= Z.of_nat (required complexity password_rules))%Z ->
  exists s w', generate_password validators length chars w = Ok (s, w').
Proof.
  intros Hlen Hc Hm Hpools Hchars.
  unfold UserAuthn.generate_password.
  destruct (Z.ltb_spec length 8) as [|_]; [lia|].
  destruct (rules_total os_urandom complexity password_rules [] w Hpools)
    as (password & w1 & Hrules).
  pose proof (rules_Ok _ _ _ _ _ _ _ Hrules) as (picks & Hpw & Hpicks & _).
  rewrite app_nil_l in Hpw.
  pose proof (picked_for_required _ _ _ Hpicks) as Hreq.
  assert (exists password2 w2,
    (if (Z.of_nat (List.length password) <? Z.max length min_length)%Z
     then fill <- choices os_urandom
                    (range_len (Z.max length min_length - Z.of_nat (List.length password)))
                    chars ;;
          ret (password ++ fill)
     else ret password) w1 = Ok (password2, w2)) as (password2 & w2 & Hfill).
  { destruct (Z.ltb_spec (Z.of_nat (List.length password)) (Z.max length min_length))
      as [Hshort|Hlong].
    - destruct (choices_total os_urandom
                  (range_len (Z.max length min_length - Z.of_nat (List.length password)))
                  chars w1) as (fill & w2 & Hf).
      { left. destruct Hchars as [|Hle]; [done|]. subst password. lia. }
      exists (password ++ fill), w2. apply bind_Ok. exists fill, w2. by split.
    - unfold ret. eauto. }
  destruct (shuffle_Ok mersenne_twister password2 w2) as (y & Hy & _).
  eexists y, _. apply bind_Ok. exists complexity, w.
  split; [by apply lift_Ok|].
  apply bind_Ok. exists (Z.max length min_length), w.
  split; [apply lift_Ok; split; [|done]; apply max_with_Ok; eauto|].
  apply bind_Ok. exists password, w1. split; [done|].
  apply bind_Ok. exists password2, w2. split; [done|].
  apply bind_Ok. eexists y, _. split; [exact Hy|reflexivity].
Qed.

End GeneratePassword.

(** ** Character classes *)

Lemma count_in_app cls s1 s2 :
  count_in cls (s1 ++ s2) = count_in cls s1 + count_in cls s2.
Proof. unfold count_in. by rewrite filter_app, length_app. Qed.

Lemma count_in_Permutation cls s1 s2 :
  s1 ≡ₚ s2 -> count_in cls s1 = count_in cls s2.
Proof. unfold count_in. by intros ->. Qed.

Lemma count_in_all cls s :
  Forall (fun c => c ∈ cls) s -> count_in cls s = length s.
Proof.
  unfold count_in. induction 1 as [|c s Hc _ IH]; [reflexivity|].
  rewrite filter_cons_True by done. cbn. by rewrite IH.
Qed.

Lemma count_in_mono cls cls' s :
  (forall c, c ∈ cls -> c ∈ cls') -> count_in cls s <= count_in cls' s.
Proof.
  intros Hsub. unfold count_in. induction s as [|c s IH]; [done|].
  rewrite !filter_cons. destruct (decide (c ∈ cls)).
  - rewrite decide_True by auto. cbn. lia.
  - case_decide; cbn; lia.
Qed.

Lemma lowercase_letters c : c ∈ ascii_lowercase -> c ∈ ascii_letters.
Proof. unfold ascii_letters. rewrite elem_of_app. auto. Qed.

Lemma uppercase_letters c : c ∈ ascii_uppercase -> c ∈ ascii_letters.
Proof. unfold ascii_letters. rewrite elem_of_app. auto. Qed.

Lemma password_rules_NoDup : Forall (fun entry => NoDup entry.2) password_rules.
Proof. apply (bool_decide_unpack _). vm_compute. reflexivity. Qed.

(** The contributions of the six rules, by name. *)
Lemma password_rules_picks complexity picks :
  Forall2 (picked_for complexity) password_rules picks ->
  exists lower upper alphabetic numeric punct symbol,
    picks = [lower; upper; alphabetic; numeric; punct; symbol] /\
    picked_for complexity ("min_lower", ascii_lowercase) lower /\
    picked_for complexity ("min_upper", ascii_uppercase) upper /\
    picked_for complexity ("min_alphabetic", ascii_letters) alphabetic /\
    picked_for complexity ("min_numeric", digits) numeric /\
    picked_for complexity ("min_punctuation", punctuation) punct /\
    picked_for complexity ("min_symbol", non_ascii_characters) symbol.
Proof.
  unfold password_rules. intros H.
  repeat (apply Forall2_cons_inv_l in H as (? & ? & ? & H & ->)).
  apply Forall2_nil_inv_l in H as ->. eauto 15.
Qed.

(** ** [password_complexity] *)

Lemma password_complexity_Ok validators complexity :
  password_complexity validators = Ok complexity <->
  exists policy, collect_complexity validators ∅ = Ok policy /\
                 complexity = merge_alphabetic policy.
Proof.
  unfold password_complexity.
  destruct (collect_complexity validators ∅) as [policy|e]; split.
  - intros [= <-]. eauto.
  - intros (? & [= <-] & ->). reflexivity.
  - discriminate.
  - intros (? & [=] & _).
Qed.

Lemma merge_alphabetic_other policy rule :
  rule <> "min_alphabetic" ->
  merge_alphabetic policy !! rule = policy !! rule.
Proof.
  intros Hne. unfold merge_alphabetic.
  destruct (_ && _); [|reflexivity]. by rewrite lookup_insert_ne.
Qed.

(** Lower-case, upper-case and merged alphabetic minimums together
    cover the alphabetic minimum that was configured. *)
Lemma merge_alphabetic_covers policy :
  (get0 policy "min_alphabetic"
   <= Z.of_nat (range_len (get0 policy "min_lower"))
      + Z.of_nat (range_len (get0 policy "min_upper"))
      + Z.of_nat (range_len (get0 (merge_alphabetic policy) "min_alphabetic")))%Z.
Proof.
  unfold merge_alphabetic, get0, truthy, range_len.
  destruct (policy !! "min_alphabetic") as [a|] eqn:Ha; cbn [default]; [|lia].
  destruct (policy !! "min_lower") as [l|], (policy !! "min_upper") as [u|];
    cbn [default negb andb orb];
    repeat match goal with
    | |- context [(?x =? 0)%Z] => destruct (Z.eqb_spec x 0); cbn [negb andb orb]
    end;
    rewrite ?lookup_insert_eq, ?Ha; cbn [default from_option]; unfold id; lia.
Qed.

Lemma merge_alphabetic_non_negative policy :
  non_negative policy -> non_negative (merge_alphabetic policy).
Proof.
  intros Hpos rule v. unfold merge_alphabetic.
  destruct (_ && _); [|apply Hpos].
  destruct (decide (rule = "min_alphabetic")) as [->|Hne].
  - rewrite lookup_insert_eq. intros [= <-]. lia.
  - rewrite lookup_insert_ne by done. apply Hpos.
Qed.

(** ** Properties of [generate_password] *)

Section PasswordProperties.
Variable os_urandom : nat -> nat.
Variable mersenne_twister : nat -> nat.

Local Abbreviation generate_password :=
  (UserAuthn.generate_password os_urandom mersenne_twister).

(** C1.  A password returned for a requested length of at least 8
    holds, for each of the six character classes, at least as many
    characters of the class as the policy asks for: the configured
    minimum of lower-case letters, upper-case letters, letters, digits,
    punctuation and symbols, and also the alphabetic minimum that
    [password_complexity] leaves after merging it with the lower-case
    and upper-case minimums.  Characters of the fill and of the other
    rules count. *)
Theorem generate_password_meets_policy validators policy length chars w s w' :
  (8 <= length)%Z ->
  collect_complexity validators ∅ = Ok policy ->
  generate_password validators length chars w = Ok (s, w') ->
  (get0 policy "min_lower" <= Z.of_nat (count_in ascii_lowercase s))%Z /\
  (get0 policy "min_upper" <= Z.of_nat (count_in ascii_uppercase s))%Z /\
  (get0 policy "min_alphabetic" <= Z.of_nat (count_in ascii_letters s))%Z /\
  (get0 (merge_alphabetic policy) "min_alphabetic"
     <= Z.of_nat (count_in ascii_letters s))%Z /\
  (get0 policy "min_numeric" <= Z.of_nat (count_in digits s))%Z /\
  (get0 policy "min_punctuation" <= Z.of_nat (count_in punctuation s))%Z /\
  (get0 policy "min_symbol" <= Z.of_nat (count_in non_ascii_characters s))%Z.
Proof.
  intros _ Hpolicy Hrun.
  assert (password_complexity validators = Ok (merge_alphabetic policy)) as Hpc.
  { apply password_complexity_Ok. eauto. }
  apply generate_password_Ok in Hrun
    as (complexity & min_length & picks & fill & _ & Hc & _ & Hpicks & _ & _ & Hperm & _).
  rewrite Hpc in Hc. injection Hc as <-.
  apply password_rules_picks in Hpicks
    as (lower & upper & alphabetic & numeric & punct & symbol & -> &
        (Hl & Hlin & _) & (Hu & Huin & _) & (Ha & Hain & _) &
        (Hn & Hnin & _) & (Hp & Hpin & _) & (Hs & Hsin & _)).
  cbn [fst snd concat] in *.
  pose proof (merge_alphabetic_covers policy) as Hcover.
  unfold get0 in Hl, Hu, Hn, Hp, Hs.
  rewrite (merge_alphabetic_other policy) in Hl, Hu, Hn, Hp, Hs by done.
  fold (get0 policy "min_lower") in Hl. fold (get0 policy "min_upper") in Hu.
  fold (get0 policy "min_numeric") in Hn. fold (get0 policy "min_punctuation") in Hp.
  fold (get0 policy "min_symbol") in Hs.
  pose proof (count_in_mono _ _ lower lowercase_letters) as Hla.
  pose proof (count_in_mono _ _ upper uppercase_letters) as Hua.
  apply count_in_all in Hlin, Huin, Hain, Hnin, Hpin, Hsin.
  rewrite !(count_in_Permutation _ _ _ Hperm), !count_in_app.
  unfold range_len in *. repeat split; lia.
Qed.

Lemma required_summed complexity :
  non_negative complexity ->
  Z.of_nat (required complexity password_rules) = summed_minimums complexity.
Proof.
  intros Hpos.
  assert (forall rule, 0 <= get0 complexity rule)%Z as Hget.
  { intros rule. unfold get0. destruct (complexity !! rule) eqn:E; cbn; [eauto|lia]. }
  unfold required, summed_minimums, password_rules, range_len. cbn [map sum_list fst].
  pose proof (Hget "min_lower"). pose proof (Hget "min_upper").
  pose proof (Hget "min_alphabetic"). pose proof (Hget "min_numeric").
  pose proof (Hget "min_punctuation"). pose proof (Hget "min_symbol").
  unfold id. lia.
Qed.

Lemma pool_sizes_within complexity :
  pool_sizes_respected complexity <-> within_pools complexity password_rules.
Proof.
  unfold pool_sizes_respected, within_pools, password_rules.
  rewrite !Forall_cons, Forall_nil. cbn [fst snd].
  change (length ascii_lowercase) with 26. change (length ascii_uppercase) with 26.
  change (length ascii_letters) with 52. change (length digits) with 10.
  change (length punctuation) with 32. change (length non_ascii_characters) with 12.
  unfold range_len. intuition lia.
Qed.

(** C2, as amended.  When the policy names a minimum length and its
    per-class minimums add up to no more than the larger of the
    requested length and that minimum length, a password returned for a
    requested length of at least 8 has exactly that larger length. *)
Theorem generate_password_length_within_target
    validators complexity min_length length chars w s w' :
  (8 <= length)%Z ->
  password_complexity validators = Ok complexity ->
  complexity !! "min_length" = Some min_length ->
  (Z.of_nat (required complexity password_rules) <= Z.max length min_length)%Z ->
  generate_password validators length chars w = Ok (s, w') ->
  Z.of_nat (List.length s) = Z.max length min_length.
Proof.
  intros _ Hc Hm Hle Hrun.
  rewrite (generate_password_length _ _ _ _ _ _ _ _ _ _ Hrun Hc Hm). lia.
Qed.

(** C3.  When the per-class minimums of the policy add up to more
    than the larger of the requested length and the policy's minimum
    length, a returned password has exactly as many characters as the
    minimums add up to, which is not that larger length. *)
Theorem generate_password_length_policy_driven
    validators complexity min_length length chars w s w' :
  password_complexity validators = Ok complexity ->
  non_negative complexity ->
  complexity !! "min_length" = Some min_length ->
  (Z.max length min_length < summed_minimums complexity)%Z ->
  generate_password validators length chars w = Ok (s, w') ->
  Z.of_nat (List.length s) = summed_minimums complexity /\
  Z.of_nat (List.length s) <> Z.max length min_length.
Proof.
  intros Hc Hpos Hm Hlt Hrun.
  rewrite (generate_password_length _ _ _ _ _ _ _ _ _ _ Hrun Hc Hm).
  rewrite required_summed by done. lia.
Qed.

(** C4.  A configuration that lists no minimum-length validator does
    not yield a password: comparing the requested length with the
    missing entry raises TypeError. *)
Theorem generate_password_without_min_length validators complexity length chars w :
  (8 <= length)%Z ->
  password_complexity validators = Ok complexity ->
  complexity !! "min_length" = None ->
  generate_password validators length chars w = Raise TypeError.
Proof.
  intros Hlen Hc Hm. unfold UserAuthn.generate_password.
  destruct (Z.ltb_spec length 8) as [|_]; [lia|].
  unfold bind at 1. unfold lift at 1. rewrite Hc.
  unfold bind at 1. unfold lift at 1. rewrite Hm. reflexivity.
Qed.

(** The rules other than the minimum length do default to 0: a rule
    that the configuration does not name contributes no character. *)
Lemma apply_rule_absent complexity rule elems password w :
  complexity !! rule = None ->
  apply_rule os_urandom complexity password (rule, elems) w = Ok (password, w).
Proof. intros H. unfold apply_rule, get0. rewrite H. reflexivity. Qed.

(** C8.  A returned password has drawn one number from the system's
    entropy for each of its characters, and its shuffle has drawn one
    number fewer from the module-level Mersenne Twister, at least
    seven, leaving that shared generator in another state. *)
Theorem generate_password_draws validators length chars w s w' :
  generate_password validators length chars w = Ok (s, w') ->
  urandom_reads w' = List.length s + urandom_reads w /\
  twister_steps w' = List.length s - 1 + twister_steps w /\
  7 <= List.length s - 1 /\
  user_queries w' = user_queries w.
Proof.
  intros Hrun.
  pose proof (generate_password_Ok _ _ _ _ _ _ _ _ Hrun)
    as (complexity & min_length & _ & _ & Hlen & Hc & Hm & _ & _ & _ & _ & ->).
  pose proof (generate_password_length _ _ _ _ _ _ _ _ _ _ Hrun Hc Hm).
  cbn. repeat split; lia.
Qed.

(** C9.  When no rule asks for more characters than its pool holds
    (26 lower-case letters, 26 upper-case letters, 52 letters, 10
    digits, 32 punctuation marks, 12 symbols), the rule loop of
    [generate_password] completes from any state without choosing from
    an empty pool, and what each rule contributes is as long as the
    rule asks, taken from the rule's pool and free of repetition.  When
    some rule asks for more, [generate_password] raises: ValueError for
    a length below 8, TypeError without a minimum length, IndexError
    from the exhausted pool otherwise. *)
Theorem sampling_within_pool_sizes validators complexity :
  password_complexity validators = Ok complexity ->
  (pool_sizes_respected complexity ->
   forall password w, exists picks w',
     for_each password_rules (apply_rule os_urandom complexity) password w
     = Ok (password ++ concat picks, w') /\
     Forall2 (fun entry picked =>
                List.length picked = range_len (get0 complexity entry.1) /\
                Forall (fun c => c ∈ entry.2) picked /\
                NoDup picked)
             password_rules picks) /\
  (~ pool_sizes_respected complexity ->
   forall length chars w,
     generate_password validators length chars w
     = Raise (if (length <? 8)%Z then ValueError
              else match complexity !! "min_length" with
                   | Some _ => IndexError
                   | None => TypeError
                   end)).
Proof.
  intros Hc. split.
  - intros Hfit%pool_sizes_within password w.
    destruct (rules_total os_urandom complexity password_rules password w Hfit)
      as (password' & w' & Hrun).
    pose proof (rules_Ok _ _ _ _ _ _ _ Hrun) as (picks & -> & Hpicks & _).
    exists picks, w'. split; [exact Hrun|].
    pose proof password_rules_NoDup as Hnd.
    revert Hpicks Hnd. generalize password_rules. clear.
    induction 1 as [|entry picked rules picks (Hlen & Hin & Hnd & _) _ IH];
      intros Hpools; [constructor|].
    apply Forall_cons in Hpools as [Hpool Hpools]. constructor; auto.
  - intros Hnot length chars w. unfold UserAuthn.generate_password.
    destruct (Z.ltb_spec length 8) as [|_]; [reflexivity|].
    unfold bind at 1. unfold lift at 1. rewrite Hc.
    unfold bind at 1. unfold lift at 1.
    destruct (complexity !! "min_length") as [m|]; [|reflexivity].
    cbn [max_with]. unfold bind at 1.
    rewrite rules_short; [reflexivity|].
    by rewrite <- pool_sizes_within.
Qed.

End PasswordProperties.

(** C5.  A requested length below 8 makes both generators raise
    ValueError, whatever the policy, the pool and the state. *)
Theorem generate_password_short_length
    os_urandom mersenne_twister validators
    PASSWORD_MIN_LENGTH ENFORCE_PASSWORD_POLICY legacy_complexity
    length chars w :
  (length < 8)%Z ->
  UserAuthn.generate_password os_urandom mersenne_twister validators length chars w
  = Raise ValueError /\
  Accounts.generate_password os_urandom mersenne_twister
    PASSWORD_MIN_LENGTH ENFORCE_PASSWORD_POLICY legacy_complexity length chars w
  = Raise ValueError.
Proof.
  intros Hlt. unfold UserAuthn.generate_password, Accounts.generate_password.
  destruct (Z.ltb_spec length 8) as [_|]; [|lia]. split; reflexivity.
Qed.

Lemma sample_policy_collected :
  collect_complexity sample_validators ∅ = Ok sample_policy.
Proof. vm_compute. reflexivity. Qed.

Lemma sample_password_generated :
  UserAuthn.generate_password sample_urandom sample_twister sample_validators
    12 default_chars fresh_world
  = Ok (sample_password, World 12 11 0).
Proof. vm_compute. reflexivity. Qed.

Lemma lowercase_password_generated :
  UserAuthn.generate_password sample_urandom sample_twister lowercase_validators
    8 default_chars fresh_world
  = Ok (lowercase_password, World 10 9 0).
Proof. vm_compute. reflexivity. Qed.

Lemma generate_password_meets_policy_witness :
  (get0 sample_policy "min_lower" <= Z.of_nat (count_in ascii_lowercase sample_password))%Z /\
  (get0 sample_policy "min_upper" <= Z.of_nat (count_in ascii_uppercase sample_password))%Z /\
  (get0 sample_policy "min_alphabetic" <= Z.of_nat (count_in ascii_letters sample_password))%Z /\
  (get0 (merge_alphabetic sample_policy) "min_alphabetic"
     <= Z.of_nat (count_in ascii_letters sample_password))%Z /\
  (get0 sample_policy "min_numeric" <= Z.of_nat (count_in digits sample_password))%Z /\
  (get0 sample_policy "min_punctuation" <= Z.of_nat (count_in punctuation sample_password))%Z /\
  (get0 sample_policy "min_symbol"
     <= Z.of_nat (count_in non_ascii_characters sample_password))%Z.
Proof.
  apply (generate_password_meets_policy sample_urandom sample_twister
           sample_validators sample_policy 12 default_chars fresh_world
           sample_password (World 12 11 0)).
  - lia.
  - vm_compute. reflexivity.
  - vm_compute. reflexivity.
Defined.

(** C2, as first stated, fails: with a minimum length of 8 and ten
    lower-case letters required, a request for 8 characters returns 10. *)
Lemma generate_password_length_counterexample :
  password_complexity lowercase_validators = Ok lowercase_policy /\
  lowercase_policy !! "min_length" = Some 8%Z /\
  UserAuthn.generate_password sample_urandom sample_twister lowercase_validators
    8 default_chars fresh_world
  = Ok (lowercase_password, World 10 9 0) /\
  Z.of_nat (length lowercase_password) <> Z.max 8 8.
Proof. repeat split; try (vm_compute; reflexivity). vm_compute. discriminate. Qed.

Lemma generate_password_length_within_target_witness :
  Z.of_nat (length sample_password) = Z.max 12 8.
Proof.
  apply (generate_password_length_within_target sample_urandom sample_twister
           sample_validators (merge_alphabetic sample_policy) 8 12 default_chars
           fresh_world sample_password (World 12 11 0)).
  - lia.
  - vm_compute. reflexivity.
  - vm_compute. reflexivity.
  - vm_compute. discriminate.
  - vm_compute. reflexivity.
Defined.

Lemma lowercase_policy_non_negative : non_negative lowercase_policy.
Proof.
  apply (bool_decide_unpack (map_Forall (fun _ v => (0 <= v)%Z) lowercase_policy)).
  vm_compute. reflexivity.
Qed.

Lemma generate_password_length_policy_driven_witness :
  Z.of_nat (length lowercase_password) = summed_minimums lowercase_policy /\
  Z.of_nat (length lowercase_password) <> Z.max 8 8.
Proof.
  apply (generate_password_length_policy_driven sample_urandom sample_twister
           lowercase_validators lowercase_policy 8 8 default_chars
           fresh_world lowercase_password (World 10 9 0)).
  - vm_compute. reflexivity.
  - exact lowercase_policy_non_negative.
  - vm_compute. reflexivity.
  - vm_compute. reflexivity.
  - vm_compute. reflexivity.
Defined.

Lemma generate_password_without_min_length_witness :
  UserAuthn.generate_password sample_urandom sample_twister no_length_validators
    12 default_chars fresh_world
  = Raise TypeError.
Proof.
  apply (generate_password_without_min_length sample_urandom sample_twister
           no_length_validators no_length_policy 12 default_chars fresh_world).
  - lia.
  - vm_compute. reflexivity.
  - vm_compute. reflexivity.
Defined.

Lemma generate_password_short_length_witness :
  UserAuthn.generate_password sample_urandom sample_twister sample_validators
    7 default_chars fresh_world
  = Raise ValueError /\
  Accounts.generate_password sample_urandom sample_twister 2 false ∅
    7 default_chars fresh_world
  = Raise ValueError.
Proof.
  apply (generate_password_short_length sample_urandom sample_twister
           sample_validators 2 false ∅ 7 default_chars fresh_world).
  lia.
Defined.

Lemma generate_password_draws_witness :
  urandom_reads (World 12 11 0) = length sample_password + urandom_reads fresh_world /\
  twister_steps (World 12 11 0) = length sample_password - 1 + twister_steps fresh_world /\
  7 <= length sample_password - 1 /\
  user_queries (World 12 11 0) = user_queries fresh_world.
Proof.
  apply (generate_password_draws sample_urandom sample_twister
           sample_validators 12 default_chars fresh_world sample_password).
  vm_compute. reflexivity.
Defined.

Lemma sample_policy_fits : pool_sizes_respected (merge_alphabetic sample_policy).
Proof. vm_compute. intuition discriminate. Qed.

Lemma eleven_digits_do_not_fit : ~ pool_sizes_respected eleven_digits_policy.
Proof. vm_compute. intros (_ & _ & _ & H & _). by apply H. Qed.

Lemma sampling_within_pool_sizes_witness :
  (exists picks w',
     for_each password_rules
       (apply_rule sample_urandom (merge_alphabetic sample_policy)) [] fresh_world
     = Ok ([] ++ concat picks, w') /\
     Forall2 (fun entry picked =>
                length picked = range_len (get0 (merge_alphabetic sample_policy) entry.1) /\
                Forall (fun c => c ∈ entry.2) picked /\
                NoDup picked)
             password_rules picks) /\
  UserAuthn.generate_password sample_urandom sample_twister eleven_digits_validators
    8 default_chars fresh_world
  = Raise IndexError.
Proof.
  split.
  - apply (sampling_within_pool_sizes sample_urandom sample_twister
             sample_validators (merge_alphabetic sample_policy)).
    + vm_compute. reflexivity.
    + exact sample_policy_fits.
  - apply (sampling_within_pool_sizes sample_urandom sample_twister
             eleven_digits_validators eleven_digits_policy).
    + vm_compute. reflexivity.
    + exact eleven_digits_do_not_fit.
Defined.

(** ** Properties of [generate_username_suggestions] *)

Section UsernameProperties.
Variable mersenne_twister : nat -> nat.
Variable user_table : nat -> pystr -> bool.
Variable USERNAME_MAX_LENGTH : option Z.
Variable lower : pystr -> pystr.
Variable word_character : char -> bool.

Local Abbreviation exists_or_retired := (username_exists_or_retired user_table).
Local Abbreviation free_since first w :=
  (Forall (found_free user_table first (user_queries w))).

Lemma found_free_later first next next' username :
  next <= next' ->
  found_free user_table first next username ->
  found_free user_table first next' username.
Proof. intros Hle (t & Ht & Hfree). exists t. split; [lia|done]. Qed.

Lemma query_Ok username taken w w' :
  exists_or_retired username w = Ok (taken, w') ->
  taken = user_table (user_queries w) username /\
  user_queries w' = S (user_queries w).
Proof. unfold username_exists_or_retired. intros [= <- <-]. auto. Qed.

Lemma randint_Ok a b r w w' :
  randint mersenne_twister a b w = Ok (r, w') ->
  user_queries w' = user_queries w.
Proof.
  unfold randint. destruct (b <? a)%Z; [discriminate|].
  intros H. inv_run H. unfold module_randbelow in Hrun.
  by injection Hrun as _ <-.
Qed.

Lemma randint_total a b w :
  (a <= b)%Z -> exists r w', randint mersenne_twister a b w = Ok (r, w').
Proof.
  intros Hle. unfold randint. destruct (Z.ltb_spec b a); [lia|].
  unfold bind, module_randbelow, ret. eauto.
Qed.

(** Appending a name that the current query reports free keeps every
    listed name one that some query reported free. *)
Lemma checked_append first username suggestions taken w w' :
  exists_or_retired username w = Ok (taken, w') ->
  first <= user_queries w ->
  free_since first w suggestions ->
  free_since first w'
    (if negb taken then suggestions ++ [username] else suggestions) /\
  first <= user_queries w'.
Proof.
  intros [-> Hq]%query_Ok Hfirst Hfree. split; [|lia].
  assert (free_since first w' suggestions) as Hfree'.
  { eapply Forall_impl; [exact Hfree|]. intros u. apply found_free_later. lia. }
  destruct (user_table (user_queries w) username) eqn:Htaken; [exact Hfree'|].
  cbn [negb]. apply Forall_app. split; [exact Hfree'|].
  constructor; [|constructor]. exists (user_queries w). split; [lia|done].
Qed.

Lemma attempts_Ok n short_username int_range first suggestions suggestions' w w' :
  attempts mersenne_twister user_table n short_username int_range suggestions w
  = Ok (suggestions', w') ->
  first <= user_queries w ->
  free_since first w suggestions ->
  free_since first w' suggestions' /\ first <= user_queries w'.
Proof.
  revert w. induction n as [|n IH]; intros w H Hfirst Hfree.
  - cbn [attempts] in H. inv_run H. auto.
  - cbn [attempts] in H.
    apply bind_Ok in H as (random_int & w1 & Hq1%randint_Ok & H).
    apply bind_Ok in H as (taken & w2 & Hquery & H).
    rewrite <- Hq1 in Hfirst, Hfree.
    destruct (checked_append first _ suggestions _ _ _ Hquery Hfirst Hfree)
      as [Hfree2 Hfirst2].
    pose proof (query_Ok _ _ _ _ Hquery) as [-> Hq2].
    destruct (user_table (user_queries w1) _) eqn:Htaken; cbn [negb] in H, Hfree2.
    + by apply (IH w2).
    + inv_run H. auto.
Qed.

Lemma attempts_total n short_username int_range suggestions w :
  (int_range.1 <= int_range.2)%Z ->
  exists suggestions' w',
    attempts mersenne_twister user_table n short_username int_range suggestions w
    = Ok (suggestions', w').
Proof.
  intros Hrange. revert w. induction n as [|n IH]; intros w.
  - cbn. unfold ret. eauto.
  - cbn [attempts].
    destruct (randint_total _ _ w Hrange) as (r & w1 & Hr).
    unfold bind at 1. rewrite Hr. unfold bind at 1.
    unfold username_exists_or_retired at 1.
    destruct (negb _); [unfold ret; eauto | apply IH].
Qed.

Lemma over_ranges_Ok ranges short_username first suggestions suggestions' w w' :
  over_ranges mersenne_twister user_table ranges short_username suggestions w
  = Ok (suggestions', w') ->
  first <= user_queries w ->
  free_since first w suggestions ->
  free_since first w' suggestions'.
Proof.
  revert suggestions w. induction ranges as [|int_range ranges IH];
    intros suggestions w H Hfirst Hfree.
  - cbn [over_ranges] in H. inv_run H. auto.
  - cbn [over_ranges] in H.
    apply bind_Ok in H as (suggestions1 & w1 & Hattempts & H).
    destruct (attempts_Ok _ _ _ first _ _ _ _ Hattempts Hfirst Hfree)
      as [Hfree1 Hfirst1].
    destruct (length suggestions1 =? 3).
    + inv_run H. auto.
    + by apply (IH suggestions1 w1).
Qed.

Lemma over_ranges_total ranges short_username suggestions w :
  Forall (fun int_range => int_range.1 <= int_range.2)%Z ranges ->
  exists suggestions' w',
    over_ranges mersenne_twister user_table ranges short_username suggestions w
    = Ok (suggestions', w').
Proof.
  intros Hranges. revert suggestions w.
  induction Hranges as [|int_range ranges Hrange _ IH]; intros suggestions w.
  - cbn. unfold ret. eauto.
  - cbn [over_ranges].
    destruct (attempts_total 10 short_username int_range suggestions w Hrange)
      as (suggestions1 & w1 & Hattempts).
    unfold bind at 1. rewrite Hattempts.
    destruct (length suggestions1 =? 3); [unfold ret; eauto | apply IH].
Qed.

Local Abbreviation generate_username_suggestions :=
  (UserAuthn.generate_username_suggestions mersenne_twister user_table
     USERNAME_MAX_LENGTH lower word_character).

Lemma generate_username_suggestions_Ok name suggestions w w' :
  generate_username_suggestions name w = Ok (suggestions, w') ->
  Forall (found_free user_table (user_queries w) (user_queries w')) suggestions.
Proof.
  unfold UserAuthn.generate_username_suggestions.
  destruct (head (split_spaces name)) as [names_0|]; [|by intros H; inv_run H].
  destruct (last (split_spaces name)) as [names_last|]; [|by intros H; inv_run H].
  set (first_name := remove_special_characters_from_name word_character (lower names_0)).
  set (last_name := remove_special_characters_from_name word_character (lower names_last)).
  intros H. apply bind_Ok in H as (suggestions1 & w1 & Hnames & H).
  assert (free_since (user_queries w) w1 suggestions1 /\ user_queries w <= user_queries w1)
    as [Hfree1 Hfirst1].
  { destruct first_name as [|first_name_0 rest]; [by inv_run Hnames|].
    case_bool_decide; [|by inv_run Hnames].
    apply bind_Ok in Hnames as (taken1 & wa & Hquery1 & Hnames).
    apply bind_Ok in Hnames as (taken2 & wb & Hquery2 & [<- <-]%ret_Ok).
    destruct (checked_append (user_queries w) _ [] _ _ _ Hquery1) as [Hfree Hfirst];
      [lia | constructor |].
    exact (checked_append (user_queries w) _ _ _ _ _ Hquery2 Hfirst Hfree). }
  destruct (2 <=? length first_name); [|by inv_run H].
  exact (over_ranges_Ok _ _ _ _ _ _ _ H Hfirst1 Hfree1).
Qed.

Lemma generate_username_suggestions_total name w :
  exists suggestions w', generate_username_suggestions name w = Ok (suggestions, w').
Proof.
  unfold UserAuthn.generate_username_suggestions.
  destruct (head (split_spaces name)) as [names_0|]; [|unfold ret; eauto].
  destruct (last (split_spaces name)) as [names_last|]; [|unfold ret; eauto].
  set (first_name := remove_special_characters_from_name word_character (lower names_0)).
  set (last_name := remove_special_characters_from_name word_character (lower names_last)).
  match goal with
  | |- exists _ _, bind ?m _ _ = _ =>
      assert (exists suggestions1 w1, m w = Ok (suggestions1, w1))
        as (suggestions1 & w1 & Hnames)
  end.
  { destruct first_name as [|first_name_0 rest]; [unfold ret; eauto|].
    case_bool_decide; [|unfold ret; eauto].
    unfold bind, username_exists_or_retired, ret. eauto. }
  unfold bind at 1. rewrite Hnames.
  destruct (2 <=? length first_name); [|unfold ret; eauto].
  apply over_ranges_total. unfold int_ranges.
  repeat constructor; cbn; lia.
Qed.

End UsernameProperties.

(** "ann lee" with a table that reports a name taken at every other
    query: "annlee" is taken at query 0, "a-lee" is free at query 1,
    "ann_1" is taken at query 2, "ann_6" is free at query 3, "ann_21"
    is taken at query 4 and "ann_26" is free at query 5. *)
Lemma suggestions_for_sample_name :
  generate_username_suggestions sample_twister sample_user_table (Some 30%Z)
    (fun name => name) sample_word_character sample_name fresh_world
  = Ok ([a_lee; ann_ [54]%N; ann_ [50; 54]%N], World 0 4 6).
Proof. vm_compute. reflexivity. Qed.

(** C7.  For every name, every user table and every random tape,
    [generate_username_suggestions] returns a list, and each name in it
    was reported free by one of the queries made during the call: a name
    is appended only after its own query said so.  When the table does
    not change while the call runs, no returned name exists or is
    retired. *)
Theorem suggestions_were_free
    (mersenne_twister : nat -> nat) (USERNAME_MAX_LENGTH : option Z)
    (lower : pystr -> pystr) (word_character : char -> bool) (name : pystr) (w : world) :
  (forall user_table : nat -> pystr -> bool,
     exists suggestions w',
       generate_username_suggestions mersenne_twister user_table
         USERNAME_MAX_LENGTH lower word_character name w
       = Ok (suggestions, w') /\
       Forall (found_free user_table (user_queries w) (user_queries w')) suggestions) /\
  (forall exists_or_retired : pystr -> bool,
     exists suggestions w',
       generate_username_suggestions mersenne_twister (fun _ => exists_or_retired)
         USERNAME_MAX_LENGTH lower word_character name w
       = Ok (suggestions, w') /\
       Forall (fun username => exists_or_retired username = false) suggestions).
Proof.
  assert (forall user_table : nat -> pystr -> bool,
     exists suggestions w',
       generate_username_suggestions mersenne_twister user_table
         USERNAME_MAX_LENGTH lower word_character name w
       = Ok (suggestions, w') /\
       Forall (found_free user_table (user_queries w) (user_queries w')) suggestions)
    as Hany.
  { intros user_table.
    destruct (generate_username_suggestions_total mersenne_twister user_table
                USERNAME_MAX_LENGTH lower word_character name w)
      as (suggestions & w' & Hrun).
    exists suggestions, w'. split; [exact Hrun|].
    exact (generate_username_suggestions_Ok _ _ _ _ _ _ _ _ _ Hrun). }
  split; [exact Hany|].
  intros exists_or_retired.
  destruct (Hany (fun _ => exists_or_retired)) as (suggestions & w' & Hrun & Hfree).
  exists suggestions, w'. split; [exact Hrun|].
  eapply Forall_impl; [exact Hfree|]. by intros u (t & _ & Hu).
Qed.

(** ** Properties of [check_pwned_password] *)

Section PwnedProperties.
Variable sha1_hexdigest : list N -> string.
Variable PwnedPasswordsAPI_range : string -> option pwned_response.
Variable float : Type.
Variable math_log10 : Z -> float.
Variable math_ceil : float -> Z.

Local Abbreviation check_pwned_password :=
  (UserAuthn.check_pwned_password sha1_hexdigest PwnedPasswordsAPI_range
     float math_log10 math_ceil).

(** C6.  For a password that was hashed to [digest]: when the lookup
    service hands back the timeout sentinel, the result is the mapping
    that holds 'vulnerability' = 'unknown' and nothing else, so no
    'frequency', and nothing is raised; when it hands back counts, the
    result is returned with 'vulnerability' = 'yes' if the count of the
    digest's suffix is positive and 'no' if it is zero. *)
Theorem check_pwned_password_status password encoded :
  utf8_encode password = Ok encoded ->
  let digest := upper (sha1_hexdigest encoded) in
  (PwnedPasswordsAPI_range digest = Some RequestTimeout ->
   check_pwned_password password = Ok {[ "vulnerability" := Str "unknown" ]} /\
   exists properties,
     check_pwned_password password = Ok properties /\
     properties !! "vulnerability" = Some (Str "unknown") /\
     properties !! "frequency" = None) /\
  (forall counts,
     PwnedPasswordsAPI_range digest = Some (SuffixCounts counts) ->
     let pwned_count := get0 counts (drop_string 5 digest) in
     exists properties,
       check_pwned_password password = Ok properties /\
       ((0 < pwned_count)%Z -> properties !! "vulnerability" = Some (Str "yes")) /\
       (pwned_count = 0%Z -> properties !! "vulnerability" = Some (Str "no"))).
Proof.
  intros Hencoded digest. unfold UserAuthn.check_pwned_password.
  rewrite Hencoded. fold digest. split.
  - intros ->. cbn. rewrite insert_empty. split; [reflexivity|].
    eexists. split; [reflexivity|].
    by rewrite lookup_singleton_eq, lookup_singleton_ne.
  - intros counts Hrange. rewrite Hrange.
    set (pwned_count := get0 counts (drop_string 5 digest)). cbn beta iota zeta.
    destruct (Z.ltb_spec 0 pwned_count) as [Hpos|Hneg].
    + eexists. split; [reflexivity|].
      rewrite lookup_insert_ne by done. rewrite lookup_insert_eq.
      split; [done|lia].
    + eexists. split; [reflexivity|].
      rewrite lookup_insert_eq. split; [lia|done].
Qed.

(** C10.  For a password that can be hashed, a mapping is returned.
    It is empty when the lookup service hands back None.  It holds
    'frequency' exactly when it holds 'vulnerability' = 'yes'; then the
    service handed back counts, the count of the digest's suffix is
    positive, and 'frequency' is [math.ceil(math.log10(count))]. *)
Theorem check_pwned_password_frequency password encoded :
  utf8_encode password = Ok encoded ->
  let digest := upper (sha1_hexdigest encoded) in
  exists properties,
    check_pwned_password password = Ok properties /\
    (PwnedPasswordsAPI_range digest = None -> properties = ∅) /\
    (is_Some (properties !! "frequency")
     <-> properties !! "vulnerability" = Some (Str "yes")) /\
    (properties !! "vulnerability" = Some (Str "yes") ->
     exists counts,
       PwnedPasswordsAPI_range digest = Some (SuffixCounts counts) /\
       (0 < get0 counts (drop_string 5 digest))%Z /\
       properties !! "frequency"
       = Some (Int (math_ceil (math_log10 (get0 counts (drop_string 5 digest)))))).
Proof.
  intros Hencoded digest. unfold UserAuthn.check_pwned_password.
  rewrite Hencoded. fold digest.
  destruct (PwnedPasswordsAPI_range digest) as [[|counts]|] eqn:Hrange.
  - eexists. split; [reflexivity|]. cbn.
    rewrite lookup_insert_ne by done. rewrite lookup_insert_eq, lookup_empty.
    split; [discriminate|]. split; [|discriminate].
    split; [by intros [? [=]] | discriminate].
  - set (pwned_count := get0 counts (drop_string 5 digest)).
    destruct (Z.ltb_spec 0 pwned_count) as [Hpos|Hneg]; eexists;
      (split; [reflexivity|]); (split; [discriminate|]).
    + rewrite lookup_insert_eq, lookup_insert_ne by done. rewrite lookup_insert_eq.
      split; [split; eauto|]. intros _. exists counts. auto.
    + rewrite lookup_insert_ne by done. rewrite lookup_insert_eq, lookup_empty.
      split; [split; [by intros [? [=]] | discriminate] | discriminate].
  - eexists. split; [reflexivity|]. rewrite lookup_empty.
    split; [done|]. split; [split; [by intros [? [=]] | discriminate] | discriminate].
Qed.

End PwnedProperties.

Lemma check_pwned_password_status_witness :
  UserAuthn.check_pwned_password sample_sha1_hexdigest timed_out_range
     Z (fun n => n) sample_ceil [97; 98; 99]%N
  = Ok {[ "vulnerability" := Str "unknown" ]} /\
  exists properties,
    UserAuthn.check_pwned_password sample_sha1_hexdigest sample_range
      Z (fun n => n) sample_ceil [97; 98; 99]%N
    = Ok properties /\
    properties !! "vulnerability" = Some (Str "yes").
Proof.
  assert (utf8_encode [97; 98; 99]%N = Ok [97; 98; 99]%N) as Hencoded by reflexivity.
  split.
  - apply (check_pwned_password_status sample_sha1_hexdigest timed_out_range
             Z (fun n => n) sample_ceil [97; 98; 99]%N [97; 98; 99]%N Hencoded).
    reflexivity.
  - destruct (check_pwned_password_status sample_sha1_hexdigest sample_range
                Z (fun n => n) sample_ceil [97; 98; 99]%N [97; 98; 99]%N Hencoded)
      as [_ Hcounts].
    destruct (Hcounts _ eq_refl) as (properties & Hrun & Hyes & _).
    exists properties. split; [exact Hrun|]. apply Hyes. vm_compute. reflexivity.
Defined.

Lemma check_pwned_password_frequency_witness :
  exists properties,
    UserAuthn.check_pwned_password sample_sha1_hexdigest sample_range
      Z (fun n => n) sample_ceil [97; 98; 99]%N
    = Ok properties /\
    properties !! "vulnerability" = Some (Str "yes") /\
    properties !! "frequency" = Some (Int 2).
Proof.
  assert (utf8_encode [97; 98; 99]%N = Ok [97; 98; 99]%N) as Hencoded by reflexivity.
  destruct (check_pwned_password_frequency sample_sha1_hexdigest sample_range
              Z (fun n => n) sample_ceil [97; 98; 99]%N [97; 98; 99]%N Hencoded)
    as (properties & Hrun & _ & _ & _).
  exists properties. split; [exact Hrun|].
  vm_compute in Hrun. injection Hrun as <-. split; vm_compute; reflexivity.
Defined.

(** * Further properties *)

(** ** Redirect targets *)

Lemma without_filter c s x : x ∈ without c s <-> x ∈ s /\ x <> c.
Proof.
  unfold without. rewrite !list_elem_of_In, filter_In.
  destruct (N.eqb_spec x c); cbn; intuition congruence.
Qed.

Lemma without_absent c s : c ∉ s -> without c s = s.
Proof.
  unfold without. induction s as [|x s IH]; [done|].
  rewrite not_elem_of_cons. intros [Hne Hs]. cbn.
  destruct (N.eqb_spec x c); [congruence|]. cbn. by rewrite IH.
Qed.

Lemma filter_filter_andb {A} (f g : A -> bool) (s : list A) :
  List.filter g (List.filter f s) = List.filter (fun x => f x && g x) s.
Proof.
  induction s as [|x s IH]; [done|]. cbn.
  destruct (f x); cbn; [destruct (g x)|]; by rewrite IH.
Qed.

(** X1.  The cleaned address is the address without its tabs, carriage
    returns and line feeds: it holds none of them, every other character
    stays, in its order, and an address that has none is returned as it
    is. *)
Theorem remove_unsafe_bytes_spec url :
  let cleaned := UserAuthnUtils._remove_unsafe_bytes_from_url url in
  cleaned = List.filter (fun c => negb ((c =? 9) || (c =? 13) || (c =? 10))%N) url /\
  (forall c, c ∈ cleaned <-> c ∈ url /\ c <> 9%N /\ c <> 13%N /\ c <> 10%N) /\
  (9%N ∉ url -> 13%N ∉ url -> 10%N ∉ url -> cleaned = url).
Proof.
  cbv zeta. unfold UserAuthnUtils._remove_unsafe_bytes_from_url,
    UserAuthnUtils._UNSAFE_URL_BYTES_TO_REMOVE. cbn [foldl].
  split; [|split].
  - unfold without. rewrite !filter_filter_andb. apply filter_ext.
    intros c. by destruct (c =? 9)%N, (c =? 13)%N, (c =? 10)%N.
  - intros c. rewrite !without_filter. tauto.
  - intros H9 H13 H10.
    rewrite (without_absent 9) by done. rewrite (without_absent 13) by done.
    by apply without_absent.
Qed.

Lemma remove_unsafe_bytes_idempotent url :
  UserAuthnUtils._remove_unsafe_bytes_from_url
    (UserAuthnUtils._remove_unsafe_bytes_from_url url)
  = UserAuthnUtils._remove_unsafe_bytes_from_url url.
Proof.
  destruct (remove_unsafe_bytes_spec (UserAuthnUtils._remove_unsafe_bytes_from_url url))
    as (_ & _ & Hid).
  destruct (remove_unsafe_bytes_spec url) as (_ & Hin & _). cbv zeta in *.
  apply Hid; intros H%Hin; tauto.
Qed.

Section RedirectProperties.
Variable LOGIN_REDIRECT_WHITELIST : list pystr.
Variable Application_get : pystr -> option (pystr -> bool).
Variable urlparse_netloc : pystr -> option pystr.
Variable is_safe_url : pystr -> gset pystr -> bool -> bool.

Local Abbreviation is_safe_login_or_logout_redirect :=
  (UserAuthnUtils.is_safe_login_or_logout_redirect
     LOGIN_REDIRECT_WHITELIST Application_get urlparse_netloc is_safe_url).
Local Abbreviation cleaned := UserAuthnUtils._remove_unsafe_bytes_from_url.

(** X2.  Tabs, carriage returns and line feeds in the address never
    change the outcome: the address and its cleaned form get the same
    answer or the same error. *)
Theorem redirect_ignores_unsafe_bytes redirect_to request_host dot_client_id require_https :
  is_safe_login_or_logout_redirect redirect_to request_host dot_client_id require_https
  = is_safe_login_or_logout_redirect (cleaned redirect_to) request_host
      dot_client_id require_https.
Proof.
  unfold UserAuthnUtils.is_safe_login_or_logout_redirect.
  by rewrite remove_unsafe_bytes_idempotent.
Qed.

(** X3.  Without a client id, be it None or the empty string, nothing
    is raised and the answer is the one [is_safe_url] gives for the
    cleaned address when exactly the whitelisted hosts and the host of
    the request are allowed. *)
Theorem redirect_without_client redirect_to request_host dot_client_id require_https :
  dot_client_id = None \/ dot_client_id = Some [] ->
  is_safe_login_or_logout_redirect redirect_to request_host dot_client_id require_https
  = inr (is_safe_url (cleaned redirect_to)
           (list_to_set LOGIN_REDIRECT_WHITELIST ∪ {[ request_host ]}) require_https).
Proof. by intros [-> | ->]. Qed.

Lemma hosts_without_netloc request_host (other : pystr -> Prop) :
  request_host ∈ (list_to_set LOGIN_REDIRECT_WHITELIST ∪ {[ request_host ]} : gset pystr) /\
  (forall host, host ∈ LOGIN_REDIRECT_WHITELIST ->
     host ∈ (list_to_set LOGIN_REDIRECT_WHITELIST ∪ {[ request_host ]} : gset pystr)) /\
  (forall host,
     host ∈ (list_to_set LOGIN_REDIRECT_WHITELIST ∪ {[ request_host ]} : gset pystr) ->
     host ∈ LOGIN_REDIRECT_WHITELIST \/ host = request_host \/ other host).
Proof.
  split; [by apply elem_of_union_r, elem_of_singleton|].
  split; [intros host Hw; by apply elem_of_union_l, elem_of_list_to_set|].
  intros host [Hw%elem_of_list_to_set | ->%elem_of_singleton]%elem_of_union; auto.
Qed.

(** X4.  Whenever an answer is given, it is the one [is_safe_url]
    gives for the cleaned address and a set of allowed hosts that holds
    the host of the request and every whitelisted host; the only other
    host it can hold is the network location of the cleaned address, and
    then only if a client id was given whose application lists the
    cleaned address among its redirect URIs. *)
Theorem redirect_allowed_hosts redirect_to request_host dot_client_id require_https answer :
  is_safe_login_or_logout_redirect redirect_to request_host dot_client_id require_https
  = inr answer ->
  exists allowed_hosts : gset pystr,
    answer = is_safe_url (cleaned redirect_to) allowed_hosts require_https /\
    request_host ∈ allowed_hosts /\
    (forall host, host ∈ LOGIN_REDIRECT_WHITELIST -> host ∈ allowed_hosts) /\
    (forall host, host ∈ allowed_hosts ->
       host ∈ LOGIN_REDIRECT_WHITELIST \/ host = request_host \/
       exists client_id redirect_uris,
         dot_client_id = Some client_id /\ client_id <> [] /\
         Application_get client_id = Some redirect_uris /\
         redirect_uris (cleaned redirect_to) = true /\
         urlparse_netloc (cleaned redirect_to) = Some host).
Proof.
  unfold UserAuthnUtils.is_safe_login_or_logout_redirect.
  destruct dot_client_id as [[|c id]|].
  - intros [= <-]. eexists. split; [reflexivity|]. apply hosts_without_netloc.
  - destruct (Application_get (c :: id)) as [redirect_uris|] eqn:Happ; [|discriminate].
    destruct (redirect_uris (cleaned redirect_to)) eqn:Hlisted.
    + destruct (urlparse_netloc (cleaned redirect_to)) as [netloc|] eqn:Hnetloc;
        [|discriminate].
      intros [= <-]. eexists. split; [reflexivity|].
      split; [apply elem_of_union_l, elem_of_union_r, elem_of_singleton; done|].
      split; [intros host Hw; by apply elem_of_union_l, elem_of_union_l, elem_of_list_to_set|].
      intros host [[Hw%elem_of_list_to_set | ->%elem_of_singleton]%elem_of_union
                  | ->%elem_of_singleton]%elem_of_union; [auto | auto |].
      right; right. exists (c :: id), redirect_uris. done.
    + intros [= <-]. eexists. split; [reflexivity|]. apply hosts_without_netloc.
  - intros [= <-]. eexists. split; [reflexivity|]. apply hosts_without_netloc.
Qed.

(** X5.  A client id that no application has makes the function raise
    [Application.DoesNotExist], whatever the address, the host and the
    whitelist: no answer is given, not even for an address that would be
    safe. *)
Theorem redirect_unknown_client redirect_to request_host client_id require_https :
  client_id <> [] ->
  Application_get client_id = None ->
  is_safe_login_or_logout_redirect redirect_to request_host (Some client_id) require_https
  = inl UserAuthnUtils.DoesNotExist.
Proof.
  intros Hne Hnone. unfold UserAuthnUtils.is_safe_login_or_logout_redirect.
  destruct client_id as [|c id]; [done|]. by rewrite Hnone.
Qed.

End RedirectProperties.

(** ** Substrings and character runs *)

Lemma starts_with_spec sub s :
  UserAuthnUtils.starts_with sub s = true <-> exists post, s = sub ++ post.
Proof.
  revert s. induction sub as [|a sub IH]; intros s; cbn.
  - split; eauto.
  - destruct s as [|b s]; [split; [done | by intros (? & [=])]|].
    rewrite andb_true_iff, N.eqb_eq, IH. split.
    + intros (-> & post & ->). eauto.
    + intros (post & [= -> ->]). eauto.
Qed.

Lemma contains_spec sub s :
  UserAuthnUtils.contains sub s = true <-> exists pre post, s = pre ++ sub ++ post.
Proof.
  induction s as [|b s IH]; cbn [UserAuthnUtils.contains];
    rewrite orb_true_iff, starts_with_spec.
  - split.
    + intros [(post & ->) | [=]]. by exists [], post.
    + intros (pre & post & H). left. exists post.
      destruct pre; [done|discriminate].
  - rewrite IH. split.
    + intros [(post & ->) | (pre & post & ->)]; [by exists [], post|].
      by exists (b :: pre), post.
    + intros ([|b' pre] & post & H); [left; by exists post|].
      right. injection H as -> ->. eauto.
Qed.

(** X6.  A path counts as the version-1 registration API exactly when
    "v1" occurs somewhere in it and "register" occurs nowhere in it; the
    test looks at nothing else, neither where "v1" stands nor what
    surrounds it. *)
Theorem is_registration_api_v1_spec full_path :
  UserAuthnUtils.is_registration_api_v1 full_path = true <->
  (exists pre post, full_path = pre ++ UserAuthnUtils.v1 ++ post) /\
  ~ (exists pre post, full_path = pre ++ UserAuthnUtils.register ++ post).
Proof.
  unfold UserAuthnUtils.is_registration_api_v1.
  rewrite andb_true_iff, negb_true_iff, <- !contains_spec.
  destruct (UserAuthnUtils.contains UserAuthnUtils.register full_path);
    intuition congruence.
Qed.

Lemma findall_from_concat class current s :
  concat (UserAuthnUtils.findall_from class current s)
  = current ++ List.filter class s.
Proof.
  revert current. induction s as [|c s IH]; intros current; cbn.
  - destruct current; cbn; by rewrite ?app_nil_r.
  - destruct (class c).
    + by rewrite IH, <- app_assoc.
    + rewrite concat_app, IH. destruct current; cbn; by rewrite ?app_nil_r.
Qed.

Lemma findall_from_runs class current s :
  Forall (fun c => class c = true) current ->
  Forall (fun run => run <> [] /\ Forall (fun c => class c = true) run)
         (UserAuthnUtils.findall_from class current s).
Proof.
  revert current. induction s as [|c s IH]; intros current Hcurrent; cbn.
  - destruct current; [constructor|].
    constructor; [split; [done|assumption] | constructor].
  - destruct (class c) eqn:Hc.
    + apply IH. apply Forall_app. split; [assumption|]. by constructor.
    + apply Forall_app. split; [|by apply IH].
      destruct current; [constructor|].
      constructor; [split; [done|assumption] | constructor].
Qed.

(** X7.  Joining what [re.findall] finds for the pattern of word
    characters and hyphens gives the name without its other characters:
    the result keeps exactly the word characters and hyphens of the name,
    in their order, every run found is non-empty and made of such
    characters, and cleaning a cleaned name changes nothing. *)
Theorem remove_special_characters_spec (word_character : char -> bool) (name : pystr) :
  let class := fun c => word_character c || (c =? 45)%N in
  let runs := UserAuthnUtils.findall_class class name in
  remove_special_characters_from_name word_character name = concat runs /\
  Forall (fun run => run <> [] /\ Forall (fun c => class c = true) run) runs /\
  (forall c, c ∈ remove_special_characters_from_name word_character name
             <-> c ∈ name /\ class c = true) /\
  remove_special_characters_from_name word_character
    (remove_special_characters_from_name word_character name)
  = remove_special_characters_from_name word_character name.
Proof.
  cbv zeta. unfold UserAuthnUtils.findall_class, remove_special_characters_from_name.
  split; [by rewrite findall_from_concat|].
  split; [by apply findall_from_runs|]. split.
  - intros c. by rewrite !list_elem_of_In, filter_In.
  - rewrite filter_filter_andb. apply filter_ext. intros c. by destruct (_ || _).
Qed.

Lemma remove_unsafe_bytes_spec_witness :
  UserAuthnUtils._remove_unsafe_bytes_from_url sample_clean_url = sample_clean_url.
Proof.
  apply (remove_unsafe_bytes_spec sample_clean_url);
    apply (bool_decide_unpack _); vm_compute; reflexivity.
Defined.

Lemma redirect_without_client_witness :
  UserAuthnUtils.is_safe_login_or_logout_redirect sample_whitelist sample_applications
    sample_netloc sample_is_safe_url sample_url sample_host None true
  = inr (sample_is_safe_url sample_clean_url
           (list_to_set sample_whitelist ∪ {[ sample_host ]}) true).
Proof.
  apply (redirect_without_client sample_whitelist sample_applications
           sample_netloc sample_is_safe_url sample_url sample_host None true).
  left. reflexivity.
Defined.

Lemma redirect_allowed_hosts_witness :
  exists allowed_hosts : gset pystr,
    true = sample_is_safe_url (UserAuthnUtils._remove_unsafe_bytes_from_url sample_url)
             allowed_hosts true /\
    sample_host ∈ allowed_hosts.
Proof.
  destruct (redirect_allowed_hosts sample_whitelist sample_applications
              sample_netloc sample_is_safe_url sample_url sample_host
              (Some [99]%N) true true)
    as (allowed_hosts & Hanswer & Hhost & _).
  - vm_compute. reflexivity.
  - exists allowed_hosts. split; assumption.
Defined.

Lemma redirect_unknown_client_witness :
  UserAuthnUtils.is_safe_login_or_logout_redirect sample_whitelist sample_applications
    sample_netloc sample_is_safe_url sample_url sample_host (Some [100]%N) true
  = inl UserAuthnUtils.DoesNotExist.
Proof.
  apply (redirect_unknown_client sample_whitelist sample_applications
           sample_netloc sample_is_safe_url sample_url sample_host [100]%N true).
  - discriminate.
  - vm_compute. reflexivity.
Defined.

(** ** More on [password_complexity] *)

Lemma known_rule_names name rule :
  known_validators !! name = Some rule -> rule ∈ rule_names.
Proof.
  unfold known_validators. intros H%elem_of_list_to_map_2.
  unfold rule_names.
  repeat (apply elem_of_cons in H as [[= _ <-]|H]; [set_solver|]).
  by apply elem_of_nil in H.
Qed.

Lemma collect_complexity_app vs1 vs2 c :
  collect_complexity (vs1 ++ vs2) c
  = match collect_complexity vs1 c with
    | Ok c' => collect_complexity vs2 c'
    | Raise e => Raise e
    end.
Proof.
  revert c. induction vs1 as [|v vs1 IH]; intros c; [done|]. cbn [app collect_complexity].
  destruct (known_validators !! NAME v); [|apply IH].
  destruct (OPTIONS v); [apply IH | done].
Qed.

Lemma collect_complexity_Raise vs c e :
  collect_complexity vs c = Raise e <->
  e = KeyError /\
  Exists (fun v => is_Some (known_validators !! NAME v) /\ OPTIONS v = None) vs.
Proof.
  revert c. induction vs as [|v vs IH]; intros c; cbn [collect_complexity].
  - split; [discriminate | by intros [_ H%Exists_nil]].
  - rewrite Exists_cons.
    destruct (known_validators !! NAME v) as [param_name|] eqn:Hknown.
    + destruct (OPTIONS v) as [options|] eqn:Hoptions.
      * rewrite IH. split; [intros [-> H]; auto|].
        intros [-> [[_ [=]]|H]]. auto.
      * split; [intros [= <-]; split; [done|]; left; eauto|]. by intros [-> _].
    + rewrite IH. split; [intros [-> H]; auto|].
      intros [-> [[[? [=]] _]|H]]. auto.
Qed.

Lemma collect_complexity_lookup vs c policy rule :
  collect_complexity vs c = Ok policy ->
  is_Some (policy !! rule) <-> is_Some (c !! rule) \/ Exists (configures rule) vs.
Proof.
  revert c. induction vs as [|v vs IH]; intros c; cbn [collect_complexity].
  - intros [= <-]. rewrite Exists_nil. tauto.
  - rewrite Exists_cons. unfold configures at 1.
    destruct (known_validators !! NAME v) as [param_name|] eqn:Hknown.
    + destruct (OPTIONS v) as [options|]; [|discriminate].
      intros H%IH. rewrite H.
      destruct (decide (param_name = rule)) as [->|Hne].
      * rewrite lookup_insert_eq. split; [intros _; right; left; done | eauto].
      * rewrite lookup_insert_ne by done.
        split; [tauto|]. intros [?|[[= ?]|?]]; [tauto|done|tauto].
    + intros H%IH. rewrite H. split; [tauto|]. intros [?|[[=]|?]]; tauto.
Qed.

Lemma merge_alphabetic_lookup policy rule :
  is_Some (merge_alphabetic policy !! rule) <-> is_Some (policy !! rule).
Proof.
  unfold merge_alphabetic.
  destruct (truthy (policy !! "min_alphabetic")) eqn:Htruthy; [|done].
  destruct (_ || _); [|done]. cbn.
  destruct (decide (rule = "min_alphabetic")) as [->|Hne].
  - rewrite lookup_insert_eq. split; [|eauto]. intros _.
    destruct (policy !! "min_alphabetic"); [eauto | discriminate].
  - by rewrite lookup_insert_ne.
Qed.

(** X8.  When [password_complexity] returns, the dict has an entry for
    a rule exactly when some configured validator is the known validator
    of that rule, and every key is one of the eight rule names:
    validators it does not know leave no trace. *)
Theorem password_complexity_keys validators complexity rule :
  password_complexity validators = Ok complexity ->
  (is_Some (complexity !! rule) <-> Exists (configures rule) validators) /\
  (is_Some (complexity !! rule) -> rule ∈ rule_names).
Proof.
  intros (policy & Hpolicy & ->)%password_complexity_Ok.
  rewrite merge_alphabetic_lookup.
  pose proof (collect_complexity_lookup _ _ _ rule Hpolicy) as Hrule.
  rewrite lookup_empty in Hrule.
  assert (is_Some (policy !! rule) <-> Exists (configures rule) validators) as Hiff.
  { rewrite Hrule. split; [intros [[? [=]]|]; done | auto]. }
  split; [exact Hiff|].
  intros (v & _ & Hv)%Hiff%Exists_exists. by eapply known_rule_names.
Qed.

(** X9.  [password_complexity] raises exactly when some validator it
    knows has no OPTIONS entry, and what it raises is KeyError; an
    unknown validator without OPTIONS does no harm. *)
Theorem password_complexity_raises validators e :
  password_complexity validators = Raise e <->
  e = KeyError /\
  Exists (fun v => is_Some (known_validators !! NAME v) /\ OPTIONS v = None) validators.
Proof.
  rewrite <- (collect_complexity_Raise validators ∅).
  unfold password_complexity. destruct (collect_complexity validators ∅); [|done].
  split; discriminate.
Qed.

(** X10.  The last validator of a rule decides: when a validator of
    the rule carries OPTIONS and no later validator is one of the same
    rule, the collected minimum of the rule is the value its OPTIONS
    give under the rule's name, 0 if they give none; for every rule but
    [min_alphabetic] that is also the value in the dict returned. *)
Theorem password_complexity_last_wins before v after options rule complexity :
  configures rule v ->
  OPTIONS v = Some options ->
  Forall (fun v' => ~ configures rule v') after ->
  password_complexity (before ++ v :: after) = Ok complexity ->
  exists policy,
    collect_complexity (before ++ v :: after) ∅ = Ok policy /\
    complexity = merge_alphabetic policy /\
    policy !! rule = Some (get0 options rule) /\
    (rule <> "min_alphabetic" -> complexity !! rule = Some (get0 options rule)).
Proof.
  intros Hv Hoptions Hafter (policy & Hpolicy & ->)%password_complexity_Ok.
  exists policy. split; [exact Hpolicy|]. split; [done|].
  assert (policy !! rule = Some (get0 options rule)) as Hrule.
  { rewrite collect_complexity_app in Hpolicy.
    destruct (collect_complexity before ∅) as [c|]; [|discriminate].
    cbn [collect_complexity] in Hpolicy. unfold configures in Hv.
    rewrite Hv, Hoptions in Hpolicy.
    assert (<[rule := get0 options rule]> c !! rule = Some (get0 options rule)) as Hc
      by apply lookup_insert_eq.
    revert Hpolicy Hc. generalize (<[rule := get0 options rule]> c).
    induction Hafter as [|v' after Hv' _ IH]; intros c' Hpolicy Hc.
    - by injection Hpolicy as <-.
    - cbn [collect_complexity] in Hpolicy. unfold configures in Hv'.
      destruct (known_validators !! NAME v') as [param_name|]; [|by apply (IH c')].
      destruct (OPTIONS v'); [|discriminate].
      apply (IH _ Hpolicy). rewrite lookup_insert_ne; [done|]. congruence. }
  split; [exact Hrule|]. intros Hne. by rewrite merge_alphabetic_other.
Qed.

(** X11.  For a policy of non-negative minimums the merge keeps every
    rule but [min_alphabetic], never makes that one negative nor larger
    than configured, and leaves the three letter rules asking together
    for exactly the larger of the configured alphabetic minimum and the
    sum of the lower-case and upper-case minimums. *)
Theorem merge_alphabetic_total policy :
  non_negative policy ->
  let complexity := merge_alphabetic policy in
  (forall rule, rule <> "min_alphabetic" -> complexity !! rule = policy !! rule) /\
  (0 <= get0 complexity "min_alphabetic" <= get0 policy "min_alphabetic")%Z /\
  (get0 complexity "min_lower" + get0 complexity "min_upper"
   + get0 complexity "min_alphabetic"
   = Z.max (get0 policy "min_alphabetic")
           (get0 policy "min_lower" + get0 policy "min_upper"))%Z.
Proof.
  intros Hpos. cbv zeta.
  split; [intros rule Hne; by apply merge_alphabetic_other|].
  assert (forall rule, 0 <= get0 policy rule)%Z as Hget.
  { intros rule. unfold get0. destruct (policy !! rule) eqn:E; cbn; [|lia].
    by apply (Hpos rule). }
  pose proof (Hget "min_alphabetic"). pose proof (Hget "min_lower").
  pose proof (Hget "min_upper").
  assert (get0 (merge_alphabetic policy) "min_lower" = get0 policy "min_lower") as ->
    by (unfold get0; by rewrite merge_alphabetic_other).
  assert (get0 (merge_alphabetic policy) "min_upper" = get0 policy "min_upper") as ->
    by (unfold get0; by rewrite merge_alphabetic_other).
  assert (get0 (merge_alphabetic policy) "min_alphabetic"
          = if truthy (policy !! "min_alphabetic")
               && (truthy (policy !! "min_lower") || truthy (policy !! "min_upper"))
            then Z.max 0 (get0 policy "min_alphabetic" - get0 policy "min_lower"
                          - get0 policy "min_upper")
            else get0 policy "min_alphabetic")%Z as ->.
  { unfold merge_alphabetic. destruct (_ && _); [|done].
    unfold get0 at 1. by rewrite lookup_insert_eq. }
  unfold truthy, get0 in *.
  destruct (policy !! "min_alphabetic") as [a|], (policy !! "min_lower") as [l|],
    (policy !! "min_upper") as [u|]; cbn [default from_option andb orb negb] in *;
    unfold id in *;
    repeat match goal with
    | |- context [(?x =? 0)%Z] => destruct (Z.eqb_spec x 0); cbn [negb andb orb]
    end; lia.
Qed.

Lemma password_complexity_keys_witness :
  (is_Some (merge_alphabetic sample_policy !! "min_numeric")
   <-> Exists (configures "min_numeric") sample_validators) /\
  (is_Some (merge_alphabetic sample_policy !! "min_numeric")
   -> "min_numeric" ∈ rule_names).
Proof.
  apply (password_complexity_keys sample_validators (merge_alphabetic sample_policy)
           "min_numeric").
  vm_compute. reflexivity.
Defined.

Lemma password_complexity_raises_witness :
  password_complexity broken_validators = Raise KeyError.
Proof.
  apply (password_complexity_raises broken_validators KeyError).
  split; [reflexivity|].
  apply Exists_cons_tl, Exists_cons_hd. split; [|reflexivity].
  vm_compute. eauto.
Defined.

Lemma password_complexity_last_wins_witness :
  exists policy,
    collect_complexity
      ([validator_of "MinimumLengthValidator" "min_length" 8]
       ++ validator_of "LowercaseValidator" "min_lower" 10 :: []) ∅ = Ok policy /\
    lowercase_policy = merge_alphabetic policy /\
    policy !! "min_lower" = Some (get0 {[ "min_lower" := 10%Z ]} "min_lower") /\
    ("min_lower" <> "min_alphabetic" ->
     lowercase_policy !! "min_lower" = Some (get0 {[ "min_lower" := 10%Z ]} "min_lower")).
Proof.
  apply (password_complexity_last_wins
           [validator_of "MinimumLengthValidator" "min_length" 8]
           (validator_of "LowercaseValidator" "min_lower" 10) []
           {[ "min_lower" := 10%Z ]} "min_lower" lowercase_policy).
  - vm_compute. reflexivity.
  - reflexivity.
  - constructor.
  - vm_compute. reflexivity.
Defined.

Lemma sample_policy_non_negative : non_negative sample_policy.
Proof.
  apply (bool_decide_unpack (map_Forall (fun _ v => (0 <= v)%Z) sample_policy)).
  vm_compute. reflexivity.
Qed.

Lemma merge_alphabetic_total_witness :
  (get0 (merge_alphabetic sample_policy) "min_lower"
   + get0 (merge_alphabetic sample_policy) "min_upper"
   + get0 (merge_alphabetic sample_policy) "min_alphabetic"
   = Z.max (get0 sample_policy "min_alphabetic")
           (get0 sample_policy "min_lower" + get0 sample_policy "min_upper"))%Z.
Proof.
  apply (merge_alphabetic_total sample_policy). exact sample_policy_non_negative.
Defined.

(** ** More on [generate_password] *)

Lemma picked_for_concat complexity rules picks c :
  Forall2 (picked_for complexity) rules picks ->
  c ∈ concat picks ->
  exists rule pool, (rule, pool) ∈ rules /\ (0 < get0 complexity rule)%Z /\ c ∈ pool.
Proof.
  induction 1 as [|[rule pool] picked rules picks (Hlen & Hin & _) _ IH]; cbn.
  - by intros ?%elem_of_nil.
  - intros [Hc|Hc]%elem_of_app.
    + exists rule, pool. split; [left|]. cbn [fst snd] in *. split.
      * destruct picked; [by apply elem_of_nil in Hc|]. unfold range_len in Hlen.
        cbn in Hlen. lia.
      * rewrite Forall_forall in Hin. auto.
    + destruct (IH Hc) as (rule' & pool' & Hentry & Hpos & Hpool).
      exists rule', pool'. split; [by right|done].
Qed.

Section MorePasswordProperties.
Variable os_urandom : nat -> nat.
Variable mersenne_twister : nat -> nat.

Local Abbreviation generate_password :=
  (UserAuthn.generate_password os_urandom mersenne_twister).

(** X12.  [generate_password] returns a password exactly when the
    requested length is at least 8, the configuration can be read and
    names a minimum length, no rule asks for more characters than its
    pool holds, and either [chars] is not empty or the rules alone reach
    the target length; in every other case it raises. *)
Theorem generate_password_returns_iff validators length chars w :
  (exists s w', generate_password validators length chars w = Ok (s, w')) <->
  (8 <= length)%Z /\
  exists complexity min_length,
    password_complexity validators = Ok complexity /\
    complexity !! "min_length" = Some min_length /\
    pool_sizes_respected complexity /\
    (chars <> [] \/
     (Z.max length min_length <= Z.of_nat (required complexity password_rules))%Z).
Proof.
  split.
  - intros (s & w' & Hrun).
    apply generate_password_Ok in Hrun
      as (complexity & min_length & picks & fill & Hlen & Hc & Hm & Hpicks & Hfill
          & Hfill_len & _).
    split; [exact Hlen|]. exists complexity, min_length.
    split; [exact Hc|]. split; [exact Hm|].
    split; [by eapply pool_sizes_within, picked_for_within_pools|].
    destruct chars as [|c chars]; [right | by left].
    destruct fill as [|c fill]; [cbn [List.length] in Hfill_len; lia|].
    apply Forall_cons in Hfill as [Hc' _]. by apply elem_of_nil in Hc'.
  - intros (Hlen & complexity & min_length & Hc & Hm & Hpools%pool_sizes_within & Hchars).
    by eapply generate_password_total.
Qed.

(** X13.  Every character of a returned password comes from [chars]
    or from the pool of a rule whose minimum is positive; when no class
    rule has a positive minimum the whole password is made of [chars]. *)
Theorem generate_password_characters validators complexity length chars w s w' :
  password_complexity validators = Ok complexity ->
  generate_password validators length chars w = Ok (s, w') ->
  (forall c, c ∈ s ->
     c ∈ chars \/
     exists rule pool,
       (rule, pool) ∈ password_rules /\ (0 < get0 complexity rule)%Z /\ c ∈ pool) /\
  ((forall rule pool, (rule, pool) ∈ password_rules -> (get0 complexity rule <= 0)%Z) ->
   Forall (fun c => c ∈ chars) s).
Proof.
  intros Hc Hrun.
  apply generate_password_Ok in Hrun
    as (complexity' & min_length & picks & fill & _ & Hc' & _ & Hpicks & Hfill & _
        & Hperm & _).
  rewrite Hc in Hc'. injection Hc' as <-.
  assert (forall c, c ∈ s ->
     c ∈ chars \/
     exists rule pool,
       (rule, pool) ∈ password_rules /\ (0 < get0 complexity rule)%Z /\ c ∈ pool) as Hall.
  { intros c. rewrite Hperm. intros [Hpicked|Hfilled]%elem_of_app.
    - right. by eapply picked_for_concat.
    - left. rewrite Forall_forall in Hfill. auto. }
  split; [exact Hall|]. intros Hnone. apply Forall_forall. intros c Hin.
  destruct (Hall c Hin) as [|(rule & pool & Hentry & Hpos & _)]; [done|].
  specialize (Hnone rule pool Hentry). lia.
Qed.

End MorePasswordProperties.

Lemma agree_off_max_length_insert c1 c2 rule value :
  agree_off_max_length c1 c2 ->
  agree_off_max_length (<[rule := value]> c1) (<[rule := value]> c2).
Proof.
  intros Hagree rule' Hne. destruct (decide (rule = rule')) as [->|Hne'].
  - by rewrite !lookup_insert_eq.
  - rewrite !lookup_insert_ne by done. by apply Hagree.
Qed.

Lemma collect_complexity_agree vs c1 c2 :
  agree_off_max_length c1 c2 ->
  match collect_complexity vs c1, collect_complexity vs c2 with
  | Ok a, Ok b => agree_off_max_length a b
  | Raise e1, Raise e2 => e1 = e2
  | _, _ => False
  end.
Proof.
  revert c1 c2. induction vs as [|v vs IH]; intros c1 c2 Hagree;
    cbn [collect_complexity]; [done|].
  destruct (known_validators !! NAME v) as [param_name|]; [|by apply IH].
  destruct (OPTIONS v); [|done]. by apply IH, agree_off_max_length_insert.
Qed.

Lemma merge_alphabetic_agree c1 c2 :
  agree_off_max_length c1 c2 ->
  agree_off_max_length (merge_alphabetic c1) (merge_alphabetic c2).
Proof.
  intros Hagree. unfold merge_alphabetic, get0.
  rewrite (Hagree "min_alphabetic"), (Hagree "min_lower"), (Hagree "min_upper") by done.
  destruct (_ && _); [|done]. by apply agree_off_max_length_insert.
Qed.

(** X14.  [generate_password] never looks at the maximum length: a
    validator of [max_length] with OPTIONS can be added to or taken out
    of the configuration at any place without changing what is returned
    or raised, so a password can be longer than the configured maximum. *)
Theorem generate_password_ignores_max_length
    os_urandom mersenne_twister before v after options length chars w :
  configures "max_length" v ->
  OPTIONS v = Some options ->
  UserAuthn.generate_password os_urandom mersenne_twister (before ++ v :: after)
    length chars w
  = UserAuthn.generate_password os_urandom mersenne_twister (before ++ after)
      length chars w.
Proof.
  intros Hv Hoptions.
  assert (match password_complexity (before ++ v :: after),
                password_complexity (before ++ after) with
          | Ok a, Ok b => agree_off_max_length a b
          | Raise e1, Raise e2 => e1 = e2
          | _, _ => False
          end) as Hboth.
  { unfold password_complexity. rewrite !collect_complexity_app.
    destruct (collect_complexity before ∅) as [c|]; [|done].
    cbn [collect_complexity]. unfold configures in Hv. rewrite Hv, Hoptions.
    pose proof (collect_complexity_agree after
                  (<["max_length" := get0 options "max_length"]> c) c) as Hafter.
    destruct (collect_complexity after _), (collect_complexity after c);
      try (apply Hafter); try (apply merge_alphabetic_agree, Hafter).
    all: intros rule Hne; by rewrite lookup_insert_ne. }
  unfold UserAuthn.generate_password. destruct (length <? 8)%Z; [done|].
  unfold bind at 1 3. unfold lift at 1 3.
  destruct (password_complexity (before ++ v :: after)) as [c1|e1],
    (password_complexity (before ++ after)) as [c2|e2]; try done; [|by subst].
  unfold password_rules. cbn [for_each]. unfold apply_rule, get0.
  rewrite (Hboth "min_length"), (Hboth "min_lower"), (Hboth "min_upper"),
    (Hboth "min_alphabetic"), (Hboth "min_numeric"), (Hboth "min_punctuation"),
    (Hboth "min_symbol") by done.
  reflexivity.
Qed.

Lemma generate_password_returns_iff_witness :
  exists s w',
    UserAuthn.generate_password sample_urandom sample_twister sample_validators
      12 default_chars fresh_world = Ok (s, w').
Proof.
  apply (generate_password_returns_iff sample_urandom sample_twister
           sample_validators 12 default_chars fresh_world).
  split; [lia|]. exists (merge_alphabetic sample_policy), 8%Z.
  split; [vm_compute; reflexivity|]. split; [vm_compute; reflexivity|].
  split; [exact sample_policy_fits|]. left. discriminate.
Defined.

Lemma generate_password_characters_witness :
  Forall (fun c =>
            c ∈ default_chars \/
            exists rule pool,
              (rule, pool) ∈ password_rules /\
              (0 < get0 lowercase_policy rule)%Z /\ c ∈ pool)
         lowercase_password.
Proof.
  apply Forall_forall.
  apply (generate_password_characters sample_urandom sample_twister
           lowercase_validators lowercase_policy 8 default_chars fresh_world
           lowercase_password (World 10 9 0)).
  - vm_compute. reflexivity.
  - vm_compute. reflexivity.
Defined.

Lemma generate_password_ignores_max_length_witness :
  UserAuthn.generate_password sample_urandom sample_twister
    ([validator_of "MinimumLengthValidator" "min_length" 8] ++ max_length_validator :: [])
    12 default_chars fresh_world
  = UserAuthn.generate_password sample_urandom sample_twister
      ([validator_of "MinimumLengthValidator" "min_length" 8] ++ [])
      12 default_chars fresh_world.
Proof.
  apply (generate_password_ignores_max_length sample_urandom sample_twister
           [validator_of "MinimumLengthValidator" "min_length" 8]
           max_length_validator [] {[ "max_length" := 10%Z ]} 12 default_chars
           fresh_world).
  - vm_compute. reflexivity.
  - reflexivity.
Defined.

(** With a maximum length of 10 configured, a request for 12 characters
    returns 12. *)
Lemma longer_than_max_length :
  exists s w',
    UserAuthn.generate_password sample_urandom sample_twister
      [validator_of "MinimumLengthValidator" "min_length" 8; max_length_validator]
      12 default_chars fresh_world = Ok (s, w') /\ length s = 12.
Proof. eexists _, _. split; vm_compute; reflexivity. Qed.

(** ** More on [check_pwned_password] *)

Lemma utf8_encode_char_Raise c e :
  utf8_encode_char c = Raise e <-> e = UnicodeEncodeError /\ unencodable c.
Proof.
  unfold utf8_encode_char, unencodable.
  destruct (N.ltb_spec c 128); [split; [discriminate|lia]|].
  destruct (N.ltb_spec c 2048); [split; [discriminate|lia]|].
  destruct (N.leb_spec 55296 c), (N.leb_spec c 57343); cbn [andb];
    try (split; [intros [= <-]; split; [done|lia] | by intros [-> _]]).
  all: destruct (N.ltb_spec c 65536); [split; [discriminate|lia]|].
  all: destruct (N.ltb_spec c 1114112); [split; [discriminate|lia]|].
  all: split; [intros [= <-]; split; [done|lia] | by intros [-> _]].
Qed.

Lemma utf8_encode_Raise s e :
  utf8_encode s = Raise e <-> e = UnicodeEncodeError /\ Exists unencodable s.
Proof.
  revert e. induction s as [|c s IH]; intros e; cbn [utf8_encode].
  - split; [discriminate | by intros [_ H%Exists_nil]].
  - rewrite Exists_cons.
    destruct (utf8_encode_char c) as [b|e1] eqn:Hc.
    + assert (~ unencodable c) as Hgood.
      { intros Hbad.
        pose proof (proj2 (utf8_encode_char_Raise c UnicodeEncodeError)
                      (conj eq_refl Hbad)) as Hraise.
        rewrite Hc in Hraise. discriminate. }
      destruct (utf8_encode s) as [bs|e2].
      * split; [discriminate|]. intros [-> [?|Hs]]; [done|].
        pose proof (proj2 (IH UnicodeEncodeError) (conj eq_refl Hs)). discriminate.
      * destruct (proj1 (IH e2) eq_refl) as [-> Hs].
        split; [intros [= <-]; auto | by intros [-> _]].
    + apply utf8_encode_char_Raise in Hc as [-> Hbad].
      split; [intros [= <-]; auto | by intros [-> _]].
Qed.

(** X15.  [check_pwned_password] raises exactly when the password
    holds a character that cannot be encoded as UTF-8, a lone surrogate;
    it then raises UnicodeEncodeError whatever the lookup service would
    have said, and no answer of the service makes it raise. *)
Theorem check_pwned_password_raises
    (sha1_hexdigest : list N -> string)
    (PwnedPasswordsAPI_range : string -> option pwned_response)
    (float : Type) (math_log10 : Z -> float) (math_ceil : float -> Z)
    (password : pystr) (e : exn) :
  check_pwned_password sha1_hexdigest PwnedPasswordsAPI_range float math_log10
    math_ceil password = Raise e
  <-> e = UnicodeEncodeError /\ Exists unencodable password.
Proof.
  rewrite <- utf8_encode_Raise. unfold check_pwned_password.
  destruct (utf8_encode password) as [encoded|e'];
    [|split; intros [= <-]; reflexivity].
  split; [|discriminate].
  destruct (PwnedPasswordsAPI_range _) as [[|counts]|]; cbn;
    repeat match goal with |- context [if ?b then _ else _] => destruct b end;
    discriminate.
Qed.

Lemma check_pwned_password_raises_witness :
  check_pwned_password sample_sha1_hexdigest sample_range Z (fun n => n) sample_ceil
    [97; 55296]%N = Raise UnicodeEncodeError.
Proof.
  apply (check_pwned_password_raises sample_sha1_hexdigest sample_range Z
           (fun n => n) sample_ceil [97; 55296]%N UnicodeEncodeError).
  split; [reflexivity|]. apply Exists_cons_tl, Exists_cons_hd. left.
  split; apply (bool_decide_unpack _); vm_compute; reflexivity.
Defined.

(** ** More on [generate_username_suggestions] *)

Lemma at_most_five_digits_spec count n k :
  at_most_five_digits count n = true ->
  (n <= k < n + Z.of_nat count)%Z ->
  length (str_of_int k) <= 5.
Proof.
  revert n. induction count as [|count IH]; intros n; [lia|].
  cbn [at_most_five_digits]. rewrite andb_true_iff, Nat.leb_le.
  intros [Hn Hrest] Hk. destruct (decide (k = n)) as [->|Hne]; [done|].
  apply (IH (n + 1)%Z); [done|lia].
Qed.

Lemma str_of_int_short k : (0 <= k <= 99999)%Z -> length (str_of_int k) <= 5.
Proof.
  intros Hk. apply (at_most_five_digits_spec (Z.to_nat 100000) 0); [|lia].
  vm_compute. reflexivity.
Qed.

Lemma split_spaces_nonempty name : split_spaces name <> [].
Proof.
  destruct name as [|c name]; [done|]. cbn.
  destruct (c =? 32)%N; [done|]. by destruct (split_spaces name).
Qed.

Lemma slice_to_length {A} (m : Z) (s : list A) :
  (0 <= m)%Z -> (Z.of_nat (length (slice_to (Some m) s)) <= m)%Z.
Proof.
  intros Hm. unfold slice_to. destruct (Z.ltb_spec m 0); [lia|].
  rewrite length_take. lia.
Qed.

Lemma without_length c s : length (without c s) <= length s.
Proof.
  unfold without. induction s as [|x s IH]; [done|]. cbn.
  destruct (negb _); cbn; lia.
Qed.

Section MoreUsernameProperties.
Variable mersenne_twister : nat -> nat.
Variable user_table : nat -> pystr -> bool.
Variable USERNAME_MAX_LENGTH : option Z.
Variable lower : pystr -> pystr.
Variable word_character : char -> bool.

Local Abbreviation generate_username_suggestions :=
  (UserAuthn.generate_username_suggestions mersenne_twister user_table
     USERNAME_MAX_LENGTH lower word_character).
Local Abbreviation attempts := (UserAuthn.attempts mersenne_twister user_table).
Local Abbreviation over_ranges := (UserAuthn.over_ranges mersenne_twister user_table).

(** The state after [queries] more queries and [draws] more draws. *)
Local Abbreviation later w draws queries :=
  (World (urandom_reads w) (draws + twister_steps w) (queries + user_queries w)).

Lemma randint_range a b r w w' :
  randint mersenne_twister a b w = Ok (r, w') ->
  (a <= r <= b)%Z /\ w' = later w 1 0.
Proof.
  unfold randint. destruct (Z.ltb_spec b a) as [|Hab]; [discriminate|].
  intros Hrun. apply bind_Ok in Hrun as (i & w1 & Hdraw & [<- <-]%ret_Ok).
  unfold module_randbelow in Hdraw.
  assert (w1 = later w 1 0) as -> by (injection Hdraw as _ <-; reflexivity).
  assert (i = mersenne_twister (twister_steps w) mod Z.to_nat (b - a + 1)) as ->
    by congruence.
  split; [|done].
  pose proof (Nat.mod_upper_bound (mersenne_twister (twister_steps w))
                (Z.to_nat (b - a + 1))). lia.
Qed.

(** An inner loop appends at most one name, built from a number of the
    range, and asks as often as it draws. *)
Lemma attempts_steps n short_username int_range suggestions suggestions' w w' :
  attempts n short_username int_range suggestions w = Ok (suggestions', w') ->
  exists tries,
    tries <= n /\ w' = later w tries tries /\
    (suggestions' = suggestions \/
     exists r, (int_range.1 <= r <= int_range.2)%Z /\
               suggestions' = suggestions ++ [short_username ++ [95%N] ++ str_of_int r]).
Proof.
  revert w. induction n as [|n IH]; intros w H; cbn [UserAuthn.attempts] in H.
  - apply ret_Ok in H as [<- <-]. exists 0. destruct w. auto.
  - apply bind_Ok in H as (r & w1 & [Hr ->]%randint_range & H).
    apply bind_Ok in H as (taken & w2 & Hquery & H).
    unfold username_exists_or_retired in Hquery. injection Hquery as <- <-.
    destruct (user_table _ _); cbn [negb] in H.
    + apply IH in H as (tries & Hle & -> & Hform). exists (S tries).
      split; [lia|]. split; [|exact Hform]. cbn. f_equal; lia.
    + apply ret_Ok in H as [<- <-]. exists 1. split; [lia|]. split; [done|]. eauto.
Qed.

Lemma over_ranges_steps ranges short_username suggestions suggestions' w w'
    (P : pystr -> Prop) :
  over_ranges ranges short_username suggestions w = Ok (suggestions', w') ->
  length suggestions <= 2 ->
  Forall P suggestions ->
  (forall int_range r, int_range ∈ ranges -> (int_range.1 <= r <= int_range.2)%Z ->
     P (short_username ++ [95%N] ++ str_of_int r)) ->
  length suggestions' <= 3 /\ Forall P suggestions' /\
  exists tries, tries <= 10 * length ranges /\ w' = later w tries tries.
Proof.
  revert suggestions w. induction ranges as [|int_range ranges IH];
    intros suggestions w H Hlen HP Hnew; cbn [UserAuthn.over_ranges] in H.
  - apply ret_Ok in H as [<- <-]. split; [lia|]. split; [done|].
    exists 0. destruct w. auto.
  - apply bind_Ok in H as (suggestions1 & w1 & Hattempts & H).
    apply attempts_steps in Hattempts as (tries & Htries & -> & Hform).
    assert (length suggestions1 <= 3 /\ Forall P suggestions1) as [Hlen1 HP1].
    { destruct Hform as [-> | (r & Hr & ->)]; [split; [lia|done]|].
      rewrite length_app. split; [cbn; lia|].
      apply Forall_app. split; [done|]. constructor; [|constructor].
      apply (Hnew int_range); [left|done]. }
    destruct (Nat.eqb_spec (length suggestions1) 3) as [Hthree|Hfewer].
    + apply ret_Ok in H as [<- <-]. split; [lia|]. split; [done|].
      exists tries. split; [cbn [length]; lia|done].
    + apply IH in H as (Hlen' & HP' & tries' & Htries' & ->); [|lia|done|].
      * split; [done|]. split; [done|]. exists (tries' + tries).
        split; [cbn [length]; lia|]. cbn. f_equal; lia.
      * intros int_range' r Hin. apply Hnew. by right.
Qed.

(** The two suggestions made from both names. *)
Local Abbreviation both_names first_name_0 first_name last_name :=
  [ slice_to USERNAME_MAX_LENGTH (first_name ++ last_name);
    slice_to USERNAME_MAX_LENGTH ([first_name_0] ++ [45%N] ++ last_name) ].

(** What a run does, in the words of the three lemmas above: with
    [P] true of the names made from both names and of every name a range
    can give. *)
Lemma generate_username_suggestions_steps name suggestions w w' (P : pystr -> Prop) :
  generate_username_suggestions name w = Ok (suggestions, w') ->
  let first_name := first_name_of lower word_character name in
  let last_name := last_name_of lower word_character name in
  (forall c rest, first_name = c :: rest ->
     Forall P (both_names c first_name last_name)) ->
  (forall short_username r,
     short_username
     = without 45%N (without 95%N
         match USERNAME_MAX_LENGTH with
         | Some m => slice_to (Some (m - 6)%Z) first_name
         | None => first_name
         end) ->
     (0 <= r <= 99999)%Z -> P (short_username ++ [95%N] ++ str_of_int r)) ->
  length suggestions <= 3 /\ Forall P suggestions /\
  exists draws queries,
    draws <= 40 /\ queries <= draws + 2 /\ w' = later w draws queries.
Proof.
  unfold UserAuthn.generate_username_suggestions, first_name_of, last_name_of.
  pose proof (split_spaces_nonempty name) as Hnames.
  destruct (head (split_spaces name)) as [names_0|] eqn:Hhead;
    [|by destruct (split_spaces name)].
  destruct (last (split_spaces name)) as [names_last|] eqn:Hlast;
    [|by apply last_None in Hlast].
  cbn [default from_option]. unfold id.
  set (first_name := remove_special_characters_from_name word_character (lower names_0)).
  set (last_name := remove_special_characters_from_name word_character (lower names_last)).
  intros H Hboth Hrange.
  apply bind_Ok in H as (suggestions1 & w1 & Hnames1 & H).
  assert (length suggestions1 <= 2 /\ Forall P suggestions1 /\
          exists queries, queries <= 2 /\ w1 = later w 0 queries)
    as (Hlen1 & HP1 & queries1 & Hqueries1 & ->).
  { destruct first_name as [|first_name_0 rest] eqn:Hfirst.
    - apply ret_Ok in Hnames1 as [<- <-]. split; [cbn; lia|]. split; [constructor|].
      exists 0. destruct w. auto.
    - specialize (Hboth first_name_0 rest eq_refl).
      apply Forall_cons in Hboth as [HP_a Hboth].
      apply Forall_cons in Hboth as [HP_b _].
      case_bool_decide.
      + apply bind_Ok in Hnames1 as (taken1 & wa & Hquery1 & Hnames1).
        apply bind_Ok in Hnames1 as (taken2 & wb & Hquery2 & [<- <-]%ret_Ok).
        unfold username_exists_or_retired in Hquery1, Hquery2.
        injection Hquery1 as <- <-. injection Hquery2 as <- <-.
        split; [|split].
        * repeat destruct (negb _); cbn; lia.
        * repeat destruct (negb _); cbn [app]; repeat constructor; assumption.
        * exists 2. split; [lia|]. done.
      + apply ret_Ok in Hnames1 as [<- <-]. split; [cbn; lia|]. split; [constructor|].
        exists 0. destruct w. auto. }
  destruct (2 <=? length first_name).
  - apply (over_ranges_steps _ _ _ _ _ _ P) in H
      as (Hlen & HP & tries & Htries & ->); [|done|done|].
    + split; [done|]. split; [done|]. exists tries, (tries + queries1).
      unfold int_ranges in Htries. cbn [length] in Htries.
      split; [lia|]. split; [lia|]. cbn. f_equal; lia.
    + intros int_range r Hin Hr. apply Hrange; [done|].
      unfold int_ranges in Hin.
      repeat (apply elem_of_cons in Hin as [->|Hin]; [cbn in Hr; lia|]).
      by apply elem_of_nil in Hin.
  - apply ret_Ok in H as [<- <-]. split; [lia|]. split; [done|].
    exists 0, queries1. split; [lia|]. split; [lia|]. done.
Qed.

(** X16.  [generate_username_suggestions] returns at most three names,
    draws at most 40 random numbers, all from the module-level
    generator, and asks the user table at most twice more than it
    draws. *)
Theorem suggestions_bounded name suggestions w w' :
  generate_username_suggestions name w = Ok (suggestions, w') ->
  length suggestions <= 3 /\
  urandom_reads w' = urandom_reads w /\
  twister_steps w' <= twister_steps w + 40 /\
  user_queries w' <= user_queries w + (twister_steps w' - twister_steps w) + 2.
Proof.
  intros H.
  apply (generate_username_suggestions_steps _ _ _ _ (fun _ => True)) in H
    as (Hlen & _ & draws & queries & Hdraws & Hqueries & ->).
  - cbn. repeat split; lia.
  - intros. by repeat constructor.
  - done.
Qed.

(** X17.  With a maximum length of at least 6, no suggested name is
    longer than the maximum: the names made from both names are cut to
    it, and the others join at most [max_length - 6] characters of the
    first name, an underscore and a number of at most five digits. *)
Theorem suggestions_fit_max_length name suggestions w w' max_length :
  USERNAME_MAX_LENGTH = Some max_length ->
  (6 <= max_length)%Z ->
  generate_username_suggestions name w = Ok (suggestions, w') ->
  Forall (fun username => (Z.of_nat (length username) <= max_length)%Z) suggestions.
Proof.
  intros Hmax Hsix H.
  apply (generate_username_suggestions_steps _ _ _ _
           (fun username => (Z.of_nat (length username) <= max_length)%Z)) in H
    as (_ & Hall & _); [done| |].
  - intros c rest _. rewrite Hmax.
    repeat constructor; apply slice_to_length; lia.
  - intros short_username r -> Hr. rewrite Hmax.
    pose proof (str_of_int_short r Hr).
    pose proof (slice_to_length (max_length - 6)
                  (first_name_of lower word_character name)).
    pose proof (without_length 45
                  (without 95 (slice_to (Some (max_length - 6)%Z)
                                 (first_name_of lower word_character name)))).
    pose proof (without_length 95
                  (slice_to (Some (max_length - 6)%Z)
                     (first_name_of lower word_character name))).
    rewrite !length_app. cbn [length]. lia.
Qed.

(** X18.  A name whose first word leaves nothing after cleaning (an
    empty name, a leading space, only special characters) gets no
    suggestion, and neither the user table nor a generator is touched. *)
Theorem suggestions_without_first_name name w :
  first_name_of lower word_character name = [] ->
  generate_username_suggestions name w = Ok ([], w).
Proof.
  unfold UserAuthn.generate_username_suggestions, first_name_of.
  destruct (head (split_spaces name)) as [names_0|]; [|done].
  destruct (last (split_spaces name)) as [names_last|]; [|done].
  cbn [default from_option]. unfold id. by intros ->.
Qed.




End MoreUsernameProperties.

Lemma suggestions_bounded_witness :
  length [a_lee; ann_ [54]%N; ann_ [50; 54]%N] <= 3 /\
  urandom_reads (World 0 4 6) = urandom_reads fresh_world /\
  twister_steps (World 0 4 6) <= twister_steps fresh_world + 40 /\
  user_queries (World 0 4 6)
  <= user_queries fresh_world
     + (twister_steps (World 0 4 6) - twister_steps fresh_world) + 2.
Proof.
  apply (suggestions_bounded sample_twister sample_user_table (Some 30%Z)
           (fun name => name) sample_word_character sample_name
           [a_lee; ann_ [54]%N; ann_ [50; 54]%N] fresh_world (World 0 4 6)).
  vm_compute. reflexivity.
Defined.

Lemma suggestions_fit_max_length_witness :
  Forall (fun username => (Z.of_nat (length username) <= 30)%Z)
         [a_lee; ann_ [54]%N; ann_ [50; 54]%N].
Proof.
  apply (suggestions_fit_max_length sample_twister sample_user_table (Some 30%Z)
           (fun name => name) sample_word_character sample_name
           [a_lee; ann_ [54]%N; ann_ [50; 54]%N] fresh_world (World 0 4 6) 30).
  - reflexivity.
  - lia.
  - vm_compute. reflexivity.
Defined.

Lemma suggestions_without_first_name_witness :
  generate_username_suggestions sample_twister sample_user_table (Some 30%Z)
    (fun name => name) sample_word_character [32; 120]%N fresh_world
  = Ok ([], fresh_world).
Proof.
  apply (suggestions_without_first_name sample_twister sample_user_table
           (Some 30%Z) (fun name => name) sample_word_character [32; 120]%N
           fresh_world).
  vm_compute. reflexivity.
Defined.


(** ** The older [generate_password] *)

Section LegacyPassword.
Variable os_urandom : nat -> nat.
Variable mersenne_twister : nat -> nat.
Variable PASSWORD_MIN_LENGTH : Z.

Local Abbreviation draw := (Accounts.draw os_urandom).

Lemma draw_Ok n pool password password' w w' :
  draw n pool password w = Ok (password', w') ->
  exists picked,
    password' = password ++ picked /\
    length picked = range_len n /\
    Forall (fun c => c ∈ pool) picked.
Proof.
  unfold Accounts.draw. intros H.
  apply bind_Ok in H as (st & w1 & Hloop & [<- <-]%ret_Ok).
  apply sample_Ok in Hloop as (picked & Hst & Hlen & Hin & _).
  eauto.
Qed.

Lemma draw_total n pool password w :
  range_len n <= length pool ->
  exists password' w', draw n pool password w = Ok (password', w').
Proof.
  intros Hle. unfold Accounts.draw.
  destruct (sample_total os_urandom _ password pool w Hle) as (st & w' & Hloop).
  exists st.1, w'. apply bind_Ok. exists st, w'. by split.
Qed.

(** X20.  With the password policy not enforced the older generator
    never returns: for every length of at least 8 it raises
    UnboundLocalError, because [min_non_ascii] is only bound when the
    policy is enforced. *)
Theorem legacy_generate_password_unenforced complexity length chars w :
  (8 <= length)%Z ->
  Accounts.generate_password os_urandom mersenne_twister PASSWORD_MIN_LENGTH
    false complexity length chars w
  = Raise UnboundLocalError.
Proof.
  intros Hlen. unfold Accounts.generate_password.
  destruct (Z.ltb_spec length 8) as [|_]; [lia|]. cbv beta iota zeta.
  destruct (draw_total 1 digits [] w) as (p1 & w1 & H1); [vm_compute; lia|].
  unfold bind at 1. rewrite H1.
  destruct (draw_total 1 ascii_lowercase p1 w1) as (p2 & w2 & H2); [vm_compute; lia|].
  unfold bind at 1. rewrite H2.
  destruct (draw_total 1 ascii_uppercase p2 w2) as (p3 & w3 & H3); [vm_compute; lia|].
  unfold bind at 1. rewrite H3.
  destruct (draw_total 0 punctuation p3 w3) as (p4 & w4 & H4); [vm_compute; lia|].
  unfold bind at 1. rewrite H4.
  reflexivity.
Qed.

Lemma spaced_keeps n word_size length password spaced_password cls :
  Accounts.spaced n word_size length password = Ok spaced_password ->
  count_in cls password <= count_in cls spaced_password.
Proof.
  revert n spaced_password. induction password as [|l rest IH];
    intros n spaced_password; cbn [Accounts.spaced].
  - by intros [= <-].
  - destruct (word_size =? 0)%Z; [discriminate|].
    destruct (Accounts.spaced (n + 1) word_size length rest) as [tail|] eqn:Htail;
      [|discriminate].
    intros [= <-]. specialize (IH _ _ Htail).
    change (l :: rest) with ([l] ++ rest).
    change (l :: ?space ++ tail) with ([l] ++ space ++ tail).
    rewrite !count_in_app. lia.
Qed.

Lemma spaced_zero n length password :
  password <> [] ->
  Accounts.spaced n 0 length password = Raise ZeroDivisionError.
Proof. by destruct password. Qed.

(** A password returned under an enforced policy: the five groups of
    picked characters and the fill, shuffled, and spaces put in when
    more than one word is asked for. *)
Lemma legacy_generate_password_Ok complexity length chars w s w' :
  Accounts.generate_password os_urandom mersenne_twister PASSWORD_MIN_LENGTH
    true complexity length chars w = Ok (s, w') ->
  exists picked_digits picked_lower picked_upper picked_punct picked_symbol fill password,
    List.length picked_digits = range_len (legacy_digits complexity) /\
    Forall (fun c => c ∈ digits) picked_digits /\
    List.length picked_lower = range_len (legacy_lowercase complexity) /\
    Forall (fun c => c ∈ ascii_lowercase) picked_lower /\
    List.length picked_upper = range_len (get0 complexity "UPPER") /\
    Forall (fun c => c ∈ ascii_uppercase) picked_upper /\
    List.length picked_punct = range_len (get0 complexity "PUNCTUATION") /\
    Forall (fun c => c ∈ punctuation) picked_punct /\
    List.length picked_symbol = range_len (get0 complexity "NON ASCII") /\
    Forall (fun c => c ∈ Accounts.non_ascii_characters) picked_symbol /\
    List.length fill
      = range_len (Z.max length PASSWORD_MIN_LENGTH - legacy_policies complexity) /\
    Forall (fun c => c ∈ chars) fill /\
    password ≡ₚ picked_digits ++ picked_lower ++ picked_upper ++ picked_punct
                ++ picked_symbol ++ fill /\
    (if (1 <? default 1%Z (complexity !! "WORDS"))%Z
     then Accounts.spaced 0
            (Z.max length PASSWORD_MIN_LENGTH / default 1%Z (complexity !! "WORDS"))
            length password = Ok s
     else s = password).
Proof.
  unfold Accounts.generate_password, legacy_policies, legacy_digits, legacy_lowercase.
  destruct (length <? 8)%Z; [discriminate|]. cbv beta iota zeta.
  intros H.
  apply bind_Ok in H as (p1 & w1 & (picked_digits & -> & Hd & Hdin)%draw_Ok & H).
  apply bind_Ok in H as (p2 & w2 & (picked_lower & -> & Hl & Hlin)%draw_Ok & H).
  apply bind_Ok in H as (p3 & w3 & (picked_upper & -> & Hu & Huin)%draw_Ok & H).
  apply bind_Ok in H as (p4 & w4 & (picked_punct & -> & Hp & Hpin)%draw_Ok & H).
  apply bind_Ok in H as (na & w5 & [<- <-]%ret_Ok & H).
  apply bind_Ok in H as (p5 & w6 & (picked_symbol & -> & Hs & Hsin)%draw_Ok & H).
  apply bind_Ok in H as (fill & w7 & (Hfill & Hfillin & _)%choices_Ok & H).
  apply bind_Ok in H as (password & w8 & Hshuffle & H).
  destruct (shuffle_Ok mersenne_twister
              (((((([] ++ picked_digits) ++ picked_lower) ++ picked_upper)
                  ++ picked_punct) ++ picked_symbol) ++ fill) w7)
    as (password' & Hshuffle' & Hperm).
  rewrite Hshuffle' in Hshuffle. injection Hshuffle as -> <-.
  exists picked_digits, picked_lower, picked_upper, picked_punct, picked_symbol,
    fill, password.
  repeat (split; [assumption|]).
  split; [by rewrite Hperm, app_nil_l, <- !app_assoc|].
  destruct (1 <? default 1%Z (complexity !! "WORDS"))%Z.
  - unfold lift in H. destruct (Accounts.spaced _ _ _ _); [|discriminate].
    by injection H as <- _.
  - by apply ret_Ok in H as [<- _].
Qed.

(** X21.  Under an enforced policy of non-negative minimums that asks
    for no more than one word, a returned password has as many
    characters as the larger of the target length and the sum the
    generator calls [policies], plus the minimum of non-ASCII symbols,
    which that sum leaves out. *)
Theorem legacy_generate_password_length complexity length chars w s w' :
  non_negative complexity ->
  (default 1 (complexity !! "WORDS") <= 1)%Z ->
  Accounts.generate_password os_urandom mersenne_twister PASSWORD_MIN_LENGTH
    true complexity length chars w = Ok (s, w') ->
  Z.of_nat (List.length s)
  = (Z.max (Z.max length PASSWORD_MIN_LENGTH) (legacy_policies complexity)
     + get0 complexity "NON ASCII")%Z.
Proof.
  intros Hpos Hwords H.
  apply legacy_generate_password_Ok in H
    as (pd & pl & pu & pp & ps & fill & password
        & Hd & _ & Hl & _ & Hu & _ & Hp & _ & Hs & _ & Hfill & _ & Hperm & Hs').
  destruct (Z.ltb_spec 1 (default 1%Z (complexity !! "WORDS"))); [lia|]. subst s.
  rewrite Hperm, !length_app, Hd, Hl, Hu, Hp, Hs, Hfill.
  assert (forall rule, 0 <= get0 complexity rule)%Z as Hget.
  { intros rule. unfold get0. destruct (complexity !! rule) eqn:E; cbn; [|lia].
    by apply (Hpos rule). }
  pose proof (Hget "UPPER"). pose proof (Hget "LOWER"). pose proof (Hget "ALPHABETIC").
  pose proof (Hget "DIGITS"). pose proof (Hget "NUMERIC").
  pose proof (Hget "PUNCTUATION"). pose proof (Hget "NON ASCII").
  unfold legacy_policies, legacy_digits, legacy_lowercase, range_len.
  destruct (Z.ltb_spec (get0 complexity "UPPER" + get0 complexity "LOWER")
              (get0 complexity "ALPHABETIC")); lia.
Qed.

(** X22.  A password returned under an enforced policy holds at least
    the larger of DIGITS and NUMERIC digits, UPPER upper-case letters,
    ALPHABETIC letters, LOWER lower-case letters, PUNCTUATION
    punctuation marks and NON ASCII symbols, with or without the spaces
    between words. *)
Theorem legacy_generate_password_meets_policy complexity length chars w s w' :
  Accounts.generate_password os_urandom mersenne_twister PASSWORD_MIN_LENGTH
    true complexity length chars w = Ok (s, w') ->
  (get0 complexity "DIGITS" <= Z.of_nat (count_in digits s))%Z /\
  (get0 complexity "NUMERIC" <= Z.of_nat (count_in digits s))%Z /\
  (get0 complexity "UPPER" <= Z.of_nat (count_in ascii_uppercase s))%Z /\
  (get0 complexity "LOWER" <= Z.of_nat (count_in ascii_lowercase s))%Z /\
  (get0 complexity "ALPHABETIC" <= Z.of_nat (count_in ascii_letters s))%Z /\
  (get0 complexity "PUNCTUATION" <= Z.of_nat (count_in punctuation s))%Z /\
  (get0 complexity "NON ASCII"
   <= Z.of_nat (count_in Accounts.non_ascii_characters s))%Z.
Proof.
  intros H.
  apply legacy_generate_password_Ok in H
    as (pd & pl & pu & pp & ps & fill & password
        & Hd & Hdin & Hl & Hlin & Hu & Huin & Hp & Hpin & Hs & Hsin & _ & _ & Hperm & Hs').
  assert (forall cls, count_in cls password <= count_in cls s) as Hkept.
  { intros cls. destruct (1 <? _)%Z; [by eapply spaced_keeps | by subst]. }
  pose proof (Hkept digits). pose proof (Hkept ascii_uppercase).
  pose proof (Hkept ascii_lowercase). pose proof (Hkept ascii_letters).
  pose proof (Hkept punctuation). pose proof (Hkept Accounts.non_ascii_characters).
  pose proof (count_in_mono _ _ pl lowercase_letters).
  pose proof (count_in_mono _ _ pu uppercase_letters).
  apply count_in_all in Hdin, Hlin, Huin, Hpin, Hsin.
  rewrite !(count_in_Permutation _ _ _ Hperm), !count_in_app in *.
  unfold legacy_digits, legacy_lowercase, range_len in *.
  destruct (Z.ltb_spec (get0 complexity "UPPER" + get0 complexity "LOWER")
              (get0 complexity "ALPHABETIC")); repeat split; lia.
Qed.

(** X23.  Under an enforced policy that asks for more words than the
    target length has characters, the older generator never returns a
    password: the word size is 0 and placing the spaces divides by it. *)
Theorem legacy_generate_password_too_many_words complexity words length chars w :
  complexity !! "WORDS" = Some words ->
  (Z.max length PASSWORD_MIN_LENGTH < words)%Z ->
  forall s w',
    Accounts.generate_password os_urandom mersenne_twister PASSWORD_MIN_LENGTH
      true complexity length chars w <> Ok (s, w').
Proof.
  intros Hwords Hmany s w' H.
  assert (8 <= length)%Z as Hlen.
  { unfold Accounts.generate_password in H.
    destruct (Z.ltb_spec length 8); [discriminate|done]. }
  apply legacy_generate_password_Ok in H
    as (pd & pl & pu & pp & ps & fill & password
        & Hd & _ & Hl & _ & Hu & _ & Hp & _ & _ & _ & Hfill & _ & Hperm & Hs').
  rewrite Hwords in Hs'. cbn [default from_option] in Hs'. unfold id in Hs'.
  destruct (Z.ltb_spec 1 words); [|lia].
  rewrite Z.div_small in Hs' by lia.
  rewrite spaced_zero in Hs'; [discriminate|].
  intros ->. apply Permutation_nil_l in Hperm. apply (f_equal List.length) in Hperm.
  rewrite !length_app, Hd, Hl, Hu, Hp, Hfill in Hperm. cbn [List.length] in Hperm.
  unfold legacy_policies, range_len in *. lia.
Qed.

End LegacyPassword.

Lemma legacy_generate_password_unenforced_witness :
  Accounts.generate_password sample_urandom sample_twister 2 false
    legacy_sample_complexity 12 default_chars fresh_world
  = Raise UnboundLocalError.
Proof.
  apply (legacy_generate_password_unenforced sample_urandom sample_twister 2
           legacy_sample_complexity 12 default_chars fresh_world).
  lia.
Defined.

Lemma legacy_sample_non_negative : non_negative legacy_sample_complexity.
Proof.
  apply (bool_decide_unpack
           (map_Forall (fun _ v => (0 <= v)%Z) legacy_sample_complexity)).
  vm_compute. reflexivity.
Qed.

Lemma legacy_generate_password_length_witness :
  exists s w',
    Accounts.generate_password sample_urandom sample_twister 2 true
      legacy_sample_complexity 12 default_chars fresh_world = Ok (s, w') /\
    Z.of_nat (length s)
    = (Z.max (Z.max 12 2) (legacy_policies legacy_sample_complexity)
       + get0 legacy_sample_complexity "NON ASCII")%Z.
Proof.
  eexists _, _. split; [vm_compute; reflexivity|].
  eapply (legacy_generate_password_length sample_urandom sample_twister 2
            legacy_sample_complexity 12 default_chars fresh_world).
  - exact legacy_sample_non_negative.
  - vm_compute. discriminate.
  - vm_compute. reflexivity.
Defined.

Lemma legacy_generate_password_meets_policy_witness :
  exists s w',
    Accounts.generate_password sample_urandom sample_twister 2 true
      legacy_sample_complexity 12 default_chars fresh_world = Ok (s, w') /\
    (get0 legacy_sample_complexity "DIGITS" <= Z.of_nat (count_in digits s))%Z /\
    (get0 legacy_sample_complexity "UPPER" <= Z.of_nat (count_in ascii_uppercase s))%Z.
Proof.
  eexists _, _. split; [vm_compute; reflexivity|].
  pose proof (legacy_generate_password_meets_policy sample_urandom sample_twister 2
                legacy_sample_complexity 12 default_chars fresh_world _ _
                ltac:(vm_compute; reflexivity)) as (Hd & _ & Hu & _).
  split; assumption.
Defined.

Lemma legacy_generate_password_too_many_words_witness :
  Accounts.generate_password sample_urandom sample_twister 2 true
    legacy_wordy_complexity 12 default_chars fresh_world
  <> Ok ([], fresh_world).
Proof.
  apply (legacy_generate_password_too_many_words sample_urandom sample_twister 2
           legacy_wordy_complexity 20 12 default_chars fresh_world).
  - vm_compute. reflexivity.
  - lia.
Defined.
